(** * remote-volume: the WebSocket volume server and its audio backend

    A shallow embedding of [src/volumeController.js] (the per-platform
    wrappers around [amixer], [osascript] and [powershell]) and of the
    settings defaults and the message handling, broadcast and polling code
    of [src/main.js].

    Layout: JavaScript values and the builtins the code relies on, the
    environment (operating system and engine), the effect monad, the two
    source files, and then the properties. *)

From Stdlib Require Import ZArith List String Ascii Bool Lia DecimalString
  DecimalPos.
Import ListNotations.
Open Scope Z_scope.
Open Scope string_scope.

(** ** JavaScript values *)

Module JS.

(** Numbers.  The model covers the integer-valued doubles of the safe
    range (below 2^53 in absolute value), on which addition, subtraction,
    comparison, decimal printing and parsing are exact, and NaN.
    Fractions, larger numbers and the infinities are outside it: what is
    stated of a number is stated of these. *)
Inductive num : Type :=
| Int (z : Z)
| NaN.

#[local] Set Warnings "-register-all".
Inductive jsval : Type :=
| JUndefined
| JNull
| JBool (b : bool)
| JNum (n : num)
| JStr (s : string)
| JArr (items : list jsval)
| JObj (props : list (string * jsval)).

(** An [Error] object; the code only ever reads [error.message]. *)
Record Error : Type := mkError { message : string }.

(** How an operation completes: it returns a value or throws an error. *)
Inductive Completion (A : Type) : Type :=
| Normal (a : A)
| Throw (e : Error).
Arguments Normal {A} a.
Arguments Throw {A} e.

Definition and_then {A B} (c : Completion A) (k : A -> Completion B) : Completion B :=
  match c with
  | Normal a => k a
  | Throw e => Throw e
  end.

Notation "x <~ c ;; k" := (and_then c (fun x => k))
  (at level 61, c at next level, right associativity).

Definition num_eqb (a b : num) : bool :=
  match a, b with
  | Int x, Int y => Z.eqb x y
  | _, _ => false   (* NaN is equal to nothing, itself included *)
  end.

(** [a === b].  Arrays and objects compare by identity; every one the
    program meets is freshly built, so two of them are never identical. *)
Definition strict_eq (a b : jsval) : bool :=
  match a, b with
  | JUndefined, JUndefined => true
  | JNull, JNull => true
  | JBool x, JBool y => Bool.eqb x y
  | JNum x, JNum y => num_eqb x y
  | JStr x, JStr y => String.eqb x y
  | _, _ => false
  end.

(** [a !== b] *)
Definition strict_ne (a b : jsval) : bool := negb (strict_eq a b).

(** [Math.min] and [Math.max] on two numbers. *)
Definition Math_min (a b : num) : num :=
  match a, b with
  | Int x, Int y => Int (Z.min x y)
  | _, _ => NaN
  end.

Definition Math_max (a b : num) : num :=
  match a, b with
  | Int x, Int y => Int (Z.max x y)
  | _, _ => NaN
  end.

Definition num_add (a b : num) : num :=
  match a, b with
  | Int x, Int y => Int (x + y)
  | _, _ => NaN
  end.

Definition num_sub (a b : num) : num :=
  match a, b with
  | Int x, Int y => Int (x - y)
  | _, _ => NaN
  end.

(** *** Strings *)

Definition dq : string := String (ascii_of_nat 34) EmptyString.
Definition nl : string := String (ascii_of_nat 10) EmptyString.

Definition string_of_Z (z : Z) : string := NilZero.string_of_int (Z.to_int z).

(** [Number.prototype.toString] *)
Definition num_toString (n : num) : string :=
  match n with
  | Int z => string_of_Z z
  | NaN => "NaN"
  end.

Fixpoint join (sep : string) (l : list string) : string :=
  match l with
  | [] => EmptyString
  | [x] => x
  | x :: t => x ++ sep ++ join sep t
  end.

(** Whether the object has an own property [k]. *)
Fixpoint has_own (k : string) (props : list (string * jsval)) : bool :=
  match props with
  | [] => false
  | (k', _) :: t => String.eqb k k' || has_own k t
  end.

(** The TypeError of the conversion of an object to a primitive value. *)
Definition TypeError_not_primitive : Error :=
  mkError "Cannot convert object to primitive value".

(** [ToString(v)], as [+] and [Array.prototype.join] apply it.  The values
    are those [JSON.parse] builds: no property of theirs is a function.  A
    plain object is converted by the [toString] it inherits, unless it has
    an own property of that name, which is then not callable and leaves
    nothing to convert it: a TypeError.  An array is converted by [join],
    which converts its elements in turn. *)
Fixpoint ToString (v : jsval) : Completion string :=
  match v with
  | JUndefined => Normal "undefined"
  | JNull => Normal "null"
  | JBool true => Normal "true"
  | JBool false => Normal "false"
  | JNum n => Normal (num_toString n)
  | JStr s => Normal s
  | JArr items =>
      l <~ (fix elements (l : list jsval) : Completion (list string) :=
              match l with
              | [] => Normal []
              | x :: t =>
                  s <~ match x with
                       | JUndefined | JNull => Normal EmptyString
                       | _ => ToString x
                       end ;;
                  r <~ elements t ;;
                  Normal (s :: r)
              end) items ;;
      Normal (join "," l)
  | JObj props =>
      if has_own "toString" props
      then Throw TypeError_not_primitive
      else Normal "[object Object]"
  end.

(** White space and line terminators as [trim] and [parseInt] strip them.
    A string holds its text in UTF-8, as the output of a child process
    comes.  The characters of one byte: tab, line feed, vertical tab, form
    feed, carriage return, space. *)
Definition is_space (c : ascii) : bool :=
  let n := nat_of_ascii c in
  ((9 <=? n) && (n <=? 13))%nat || (n =? 32)%nat.

(** Those of two and three bytes: U+00A0; U+1680, U+2000 to U+200A,
    U+2028, U+2029, U+202F, U+205F, U+3000 and U+FEFF. *)
Definition is_space2 (a b : ascii) : bool :=
  ((nat_of_ascii a =? 194) && (nat_of_ascii b =? 160))%nat.

Definition is_space3 (a b c : ascii) : bool :=
  let x := nat_of_ascii a in
  let y := nat_of_ascii b in
  let z := nat_of_ascii c in
  ((x =? 225) && (y =? 154) && (z =? 128) ||
   (x =? 226) && (y =? 128) &&
     ((128 <=? z) && (z <=? 138) || (z =? 168) || (z =? 169) || (z =? 175)) ||
   (x =? 226) && (y =? 129) && (z =? 159) ||
   (x =? 227) && (y =? 128) && (z =? 128) ||
   (x =? 239) && (y =? 187) && (z =? 191))%nat.

(** The first bytes of these. *)
Definition wide_lead (a : ascii) : bool :=
  let x := nat_of_ascii a in
  ((x =? 194) || (x =? 225) || (x =? 226) || (x =? 227) || (x =? 239))%nat.

Fixpoint trimStart (s : string) : string :=
  match s with
  | EmptyString => EmptyString
  | String a t =>
      if is_space a then trimStart t
      else if wide_lead a then
        match t with
        | String b t2 =>
            if is_space2 a b then trimStart t2
            else match t2 with
                 | String c t3 => if is_space3 a b c then trimStart t3 else s
                 | EmptyString => s
                 end
        | EmptyString => s
        end
      else s
  end.

(** The string without its trailing white space: what is left once
    nothing but white space follows is dropped. *)
Fixpoint trimEnd (s : string) : string :=
  match s with
  | EmptyString => EmptyString
  | String c t =>
      match trimStart s with
      | EmptyString => EmptyString
      | _ => String c (trimEnd t)
      end
  end.

(** [s.trim()] *)
Definition trim (s : string) : string := trimEnd (trimStart s).

(** [s.includes(needle)] *)
Fixpoint includes (needle s : string) : bool :=
  String.prefix needle s ||
  match s with
  | EmptyString => false
  | String _ t => includes needle t
  end.

Definition is_digit (c : ascii) : bool :=
  let n := nat_of_ascii c in ((48 <=? n) && (n <=? 57))%nat.

(** Value of a digit in radix [r] (10 or 16), if it is one. *)
Definition digit_value (r : Z) (c : ascii) : option Z :=
  let n := Z.of_nat (nat_of_ascii c) in
  if ((48 <=? n) && (n <=? 57))%Z then Some (n - 48)
  else if ((r =? 16) && (97 <=? n) && (n <=? 102))%Z then Some (n - 87)
  else if ((r =? 16) && (65 <=? n) && (n <=? 70))%Z then Some (n - 55)
  else None.

(** Reads the longest prefix of radix-[r] digits: [Some] of its value (on
    top of the accumulator) once at least one digit was read. *)
Fixpoint read_digits (r : Z) (s : string) (acc : option Z) : option Z :=
  match s with
  | String c t =>
      match digit_value r c with
      | Some d =>
          read_digits r t
            (Some (match acc with Some a => a * r + d | None => d end))
      | None => acc
      end
  | EmptyString => acc
  end.

(** [parseInt(s)] with no radix argument: leading white space, a sign, an
    optional [0x] prefix, then the longest run of digits; NaN when there is
    none.  The run is read exactly, as the engine reads one that denotes a
    number below 2^53; a longer one the engine rounds to a double. *)
Definition parseInt (s : string) : num :=
  let s1 := trimStart s in
  let (sign, s2) :=
    match s1 with
    | String "-" t => (-1, t)
    | String "+" t => (1, t)
    | _ => (1, s1)
    end in
  let (r, s3) :=
    match s2 with
    | String "0" (String "x" t) => (16, t)
    | String "0" (String "X" t) => (16, t)
    | _ => (10, s2)
    end in
  match read_digits r s3 None with
  | Some v => Int (sign * v)
  | None => NaN
  end.

(** *** The two regular expressions of the Linux wrappers *)

(** Longest prefix of decimal digits, and what follows it. *)
Fixpoint span_digits (s : string) : string * string :=
  match s with
  | String c t =>
      if is_digit c
      then let (d, rest) := span_digits t in (String c d, rest)
      else (EmptyString, s)
  | EmptyString => (EmptyString, EmptyString)
  end.

(** An anchored match of [\[(\d+)%\]] at the head of [s]: the group. *)
Definition match_percent_here (s : string) : option string :=
  match s with
  | String "[" t =>
      let (d, rest) := span_digits t in
      match d with
      | EmptyString => None
      | _ => if String.prefix "%]" rest then Some d else None
      end
  | _ => None
  end.

(** [s.match(/\[(\d+)%\]/)]: group 1 of the leftmost match. *)
Fixpoint match_percent (s : string) : option string :=
  match match_percent_here s with
  | Some d => Some d
  | None =>
      match s with
      | String _ t => match_percent t
      | EmptyString => None
      end
  end.

(** Longest prefix without a single quote, and what follows it. *)
Fixpoint span_unquoted (s : string) : string * string :=
  match s with
  | String c t =>
      if Ascii.eqb c "'"
      then (EmptyString, s)
      else let (d, rest) := span_unquoted t in (String c d, rest)
  | EmptyString => (EmptyString, EmptyString)
  end.

Fixpoint drop_prefix (p s : string) : option string :=
  match p, s with
  | EmptyString, _ => Some s
  | String a p', String b s' => if Ascii.eqb a b then drop_prefix p' s' else None
  | String _ _, EmptyString => None
  end.

Definition match_control_here (s : string) : option string :=
  match drop_prefix "Simple mixer control '" s with
  | Some t =>
      let (d, rest) := span_unquoted t in
      match d, rest with
      | String _ _, String _ _ => Some d   (* [rest] starts with the quote *)
      | _, _ => None
      end
  | None => None
  end.

(** [s.match(/Simple mixer control '([^']+)'/)]: group 1 of the leftmost
    match. *)
Fixpoint match_control (s : string) : option string :=
  match match_control_here s with
  | Some d => Some d
  | None =>
      match s with
      | String _ t => match_control t
      | EmptyString => None
      end
  end.

(** [s.replace(/\n/g, ' ')] *)
Fixpoint replace_newlines (s : string) : string :=
  match s with
  | String c t =>
      String (if Ascii.eqb c (ascii_of_nat 10) then " "%char else c)
             (replace_newlines t)
  | EmptyString => EmptyString
  end.

(** Property read [v.k] for the two names the handler destructures
    ([action] and [value]), which only an object parsed from the message
    can carry. *)
Fixpoint lookup (k : string) (props : list (string * jsval)) : jsval :=
  match props with
  | [] => JUndefined
  | (k', v) :: t => if String.eqb k k' then v else lookup k t
  end.

Definition getProp (v : jsval) (k : string) : jsval :=
  match v with
  | JObj props => lookup k props
  | _ => JUndefined
  end.

End JS.

Import JS.

(** ** The environment: operating system and engine *)

Inductive exec_result : Type :=
| ExecOk (stdout : string)      (* exit status 0, captured output *)
| ExecErr (e : Error).          (* the promise of [execAsync] rejects *)

(** What the program is run on: the platform tag [os.platform()], the
    machine as [child_process.exec] sees and changes it, and the engine's
    conversion of a string to a number (to a number of the model). *)
Class Env : Type := {
  World : Type;
  platform : string;
  exec : string -> World -> exec_result * World;
  StringToNumber : string -> num
}.

(** ** Sockets, messages, observable events *)

Inductive ReadyState : Type := CONNECTING | OPEN | CLOSING | CLOSED.

Definition ReadyState_eqb (a b : ReadyState) : bool :=
  match a, b with
  | CONNECTING, CONNECTING | OPEN, OPEN | CLOSING, CLOSING | CLOSED, CLOSED => true
  | _, _ => false
  end.

(** A connection object of the [ws] library: its identity and its
    [readyState]. *)
Record WebSocket : Type := mkWebSocket {
  ws_id : nat;
  readyState : ReadyState
}.

(** The argument of [JSON.stringify] in a [send]. *)
Inductive Reply : Type :=
| StateMsg (volume : num) (muted : bool) (device : string)
| ErrorMsg (error : string).

Inductive Event : Type :=
| Exec (cmd : string) (result : exec_result)  (* a child process was run *)
| ConsoleError (label : string) (e : Error)   (* console.error(label, e) *)
| ConsoleLog (text : string)                  (* console.log(text) *)
| Sent (to : nat) (msg : Reply).              (* a message went out to a client *)

(** What [JSON.parse(message)] makes of an inbound message: it throws a
    SyntaxError, or returns the value. *)
Inductive Inbound : Type :=
| Malformed (e : Error)
| Parsed (data : jsval).

(** ** The effect monad

    State of type [S], exceptions, and the events emitted on the way.  An
    [await]ed call is a bind; [try { } catch (error) { }] is [try_catch]. *)

Record Result (S A : Type) : Type := mkResult {
  outcome : Completion A;
  final : S;
  emitted : list Event
}.
Arguments mkResult {S A} _ _ _.
Arguments outcome {S A} _.
Arguments final {S A} _.
Arguments emitted {S A} _.

Definition M (S A : Type) : Type := S -> Result S A.

Definition ret {S A} (a : A) : M S A := fun s => mkResult (Normal a) s [].

Definition throw {S A} (e : Error) : M S A := fun s => mkResult (Throw e) s [].

Definition bind {S A B} (m : M S A) (k : A -> M S B) : M S B := fun s =>
  let r := m s in
  match outcome r with
  | Normal a =>
      let r' := k a (final r) in
      mkResult (outcome r') (final r') (emitted r ++ emitted r')%list
  | Throw e => mkResult (Throw e) (final r) (emitted r)
  end.

Definition try_catch {S A} (body : M S A) (handler : Error -> M S A) : M S A :=
  fun s =>
  let r := body s in
  match outcome r with
  | Normal a => r
  | Throw e =>
      let r' := handler e (final r) in
      mkResult (outcome r') (final r') (emitted r ++ emitted r')%list
  end.

(** An operation of the engine as a step: it returns or throws, and does
    nothing else. *)
Definition run {S A} (c : Completion A) : M S A := fun s => mkResult c s [].

Definition emit {S} (ev : Event) : M S unit := fun s => mkResult (Normal tt) s [ev].

Definition get {S} : M S S := fun s => mkResult (Normal s) s [].

Definition modify {S} (f : S -> S) : M S unit := fun s => mkResult (Normal tt) (f s) [].

Notation "x <- m ;; k" := (bind m (fun x => k))
  (at level 61, m at next level, right associativity).
Notation "m ;; k" := (bind m (fun _ => k))
  (at level 61, right associativity).

Definition console_error {S} (label : string) (e : Error) : M S unit :=
  emit (ConsoleError label e).

Definition console_log {S} (text : string) : M S unit := emit (ConsoleLog text).

(** [list.forEach(f)]: a call that throws ends the iteration. *)
Fixpoint forEach {S A} (f : A -> M S unit) (l : list A) : M S unit :=
  match l with
  | [] => ret tt
  | x :: t => f x ;; forEach f t
  end.

(** ** Conversions and the operators [+] and [-] *)

Module Coercions.
Section WithEnv.
Context {env : Env}.

(** [ToPrimitive(v)]: arrays and plain objects become their string (the
    [valueOf] they inherit returns the object itself), or throw where that
    conversion does. *)
Definition ToPrimitive (v : jsval) : Completion jsval :=
  match v with
  | JArr _ | JObj _ => s <~ ToString v ;; Normal (JStr s)
  | _ => Normal v
  end.

(** [ToNumber(v)], the conversion [Math.min], [Math.max] and [-] apply. *)
Definition ToNumber (v : jsval) : Completion num :=
  match v with
  | JUndefined => Normal NaN
  | JNull => Normal (Int 0)
  | JBool true => Normal (Int 1)
  | JBool false => Normal (Int 0)
  | JNum n => Normal n
  | JStr s => Normal (StringToNumber s)
  | JArr _ | JObj _ => s <~ ToString v ;; Normal (StringToNumber s)
  end.

(** [a + b]: both sides are made primitive, left first; concatenation as
    soon as one of them is a string, addition of numbers otherwise. *)
Definition js_add (a b : jsval) : Completion jsval :=
  pa <~ ToPrimitive a ;;
  pb <~ ToPrimitive b ;;
  match pa, pb with
  | JStr _, _ | _, JStr _ =>
      sa <~ ToString pa ;;
      sb <~ ToString pb ;;
      Normal (JStr (sa ++ sb))
  | _, _ =>
      na <~ ToNumber pa ;;
      nb <~ ToNumber pb ;;
      Normal (JNum (num_add na nb))
  end.

(** [a - b] *)
Definition js_sub (a b : jsval) : Completion jsval :=
  na <~ ToNumber a ;;
  nb <~ ToNumber b ;;
  Normal (JNum (num_sub na nb)).

End WithEnv.
End Coercions.

Import Coercions.

(** ** src/volumeController.js *)

Module volumeController.
Section WithEnv.
Context {env : Env}.

(** [await execAsync(cmd)] *)
Definition execAsync (cmd : string) : M World string := fun w =>
  let (r, w') := exec cmd w in
  mkResult (match r with ExecOk out => Normal out | ExecErr e => Throw e end)
           w' [Exec cmd r].

(** *** Linux: amixer *)

Definition getVolumeLinux : M World num :=
  try_catch
    (stdout <- execAsync "amixer get Master" ;;
     ret (match match_percent stdout with
          | Some d => parseInt d
          | None => Int 0
          end))
    (fun error => console_error "Error getting volume:" error ;; ret (Int 0)).

(** The template literal of [setVolumeLinux]. *)
Definition setVolumeLinux_command (volume : num) : string :=
  "amixer set Master " ++ num_toString volume ++ "%".

Definition setVolumeLinux (volume : num) : M World unit :=
  try_catch
    (_ <- execAsync (setVolumeLinux_command volume) ;;
     ret tt)
    (fun error => console_error "Error setting volume:" error).

Definition getMutedLinux : M World bool :=
  try_catch
    (stdout <- execAsync "amixer get Master" ;;
     ret (includes "[off]" stdout))
    (fun error => console_error "Error getting mute state:" error ;; ret false).

Definition setMutedLinux (muted : bool) : M World unit :=
  try_catch
    (_ <- execAsync ("amixer set Master " ++ (if muted then "mute" else "unmute")) ;;
     ret tt)
    (fun error => console_error "Error setting mute state:" error).

Definition getOutputDeviceLinux : M World string :=
  try_catch
    (stdout <- execAsync "amixer" ;;
     ret (match match_control stdout with
          | Some d => d
          | None => "Master"
          end))
    (fun error => console_error "Error getting output device:" error ;; ret "Master").

(** *** macOS: osascript *)

Definition getVolumeMac : M World num :=
  try_catch
    (stdout <- execAsync ("osascript -e " ++ dq ++
                          "output volume of (get volume settings)" ++ dq) ;;
     ret (parseInt (trim stdout)))
    (fun error => console_error "Error getting volume:" error ;; ret (Int 0)).

(** The template literal of [setVolumeMac]. *)
Definition setVolumeMac_command (volume : num) : string :=
  "osascript -e " ++ dq ++ "set volume output volume " ++ num_toString volume ++ dq.

Definition setVolumeMac (volume : num) : M World unit :=
  try_catch
    (_ <- execAsync (setVolumeMac_command volume) ;;
     ret tt)
    (fun error => console_error "Error setting volume:" error).

Definition getMutedMac : M World bool :=
  try_catch
    (stdout <- execAsync ("osascript -e " ++ dq ++
                          "output muted of (get volume settings)" ++ dq) ;;
     ret (String.eqb (trim stdout) "true"))
    (fun error => console_error "Error getting mute state:" error ;; ret false).

Definition setMutedMac (muted : bool) : M World unit :=
  try_catch
    (_ <- execAsync ("osascript -e " ++ dq ++ "set volume " ++
                     (if muted then "with" else "without") ++ " output muted" ++ dq) ;;
     ret tt)
    (fun error => console_error "Error setting mute state:" error).

Definition getOutputDeviceMac : M World string :=
  try_catch
    (stdout <- execAsync ("system_profiler SPAudioDataType | grep " ++ dq ++
                          "Default Output Device" ++ dq ++
                          " -A 1 | tail -n 1 | sed " ++ dq ++ "s/.*: //" ++ dq) ;;
     ret (match trim stdout with
          | EmptyString => "Built-in Output"
          | t => t
          end))
    (fun error => console_error "Error getting output device:" error ;;
                  ret "Built-in Output").

(** *** Windows: PowerShell *)

Definition getVolumeWindows : M World num :=
  try_catch
    (stdout <- execAsync
       ("powershell -c " ++ dq ++
        "(New-Object -ComObject WScript.Shell).SendKeys([char]174); " ++
        "Start-Sleep -m 50; Add-Type -AssemblyName System.Windows.Forms; " ++
        "[System.Windows.Forms.SendKeys]::SendWait('{ESC}'); " ++
        "[Math]::Round([Audio]::Volume * 100)" ++ dq) ;;
     ret (parseInt (trim stdout)))
    (fun error => console_error "Error getting volume:" error ;; ret (Int 0)).

(** The two template literals of [setVolumeWindows]. *)
Definition setVolumeWindows_command (volume : num) : string :=
  let script :=
    nl ++ "      $wshShell = New-Object -ComObject WScript.Shell" ++
    nl ++ "      1..50 | ForEach-Object { $wshShell.SendKeys([char]174) }" ++
    nl ++ "      1.." ++ num_toString volume ++
          " | ForEach-Object { $wshShell.SendKeys([char]175) }" ++
    nl ++ "    " in
  "powershell -c " ++ dq ++ replace_newlines script ++ dq.

Definition setVolumeWindows (volume : num) : M World unit :=
  try_catch
    (_ <- execAsync (setVolumeWindows_command volume) ;;
     ret tt)
    (fun error => console_error "Error setting volume:" error).

Definition getMutedWindows : M World bool :=
  try_catch
    (stdout <- execAsync ("powershell -c " ++ dq ++
                          "Get-AudioDevice -PlaybackMute" ++ dq) ;;
     ret (String.eqb (trim stdout) "True"))
    (fun error => console_error "Error getting mute state:" error ;; ret false).

Definition setMutedWindows (muted : bool) : M World unit :=
  try_catch
    (_ <- execAsync ("powershell -c " ++ dq ++ "Set-AudioDevice -PlaybackMute " ++
                     (if muted then "true" else "false") ++ dq) ;;
     ret tt)
    (fun error => console_error "Error setting mute state:" error).

Definition getOutputDeviceWindows : M World string :=
  try_catch
    (stdout <- execAsync ("powershell -c " ++ dq ++
                          "(Get-AudioDevice -Playback).Name" ++ dq) ;;
     ret (match trim stdout with
          | EmptyString => "Default"
          | t => t
          end))
    (fun error => console_error "Error getting output device:" error ;;
                  ret "Default").

(** *** Platform-agnostic API *)

Definition unsupported {A} : M World A :=
  throw (mkError ("Unsupported platform: " ++ platform)).

Definition getVolume : M World num :=
  if platform =? "linux" then getVolumeLinux
  else if platform =? "darwin" then getVolumeMac
  else if platform =? "win32" then getVolumeWindows
  else unsupported.

Definition setVolume (volume : jsval) : M World unit :=
  n <- run (ToNumber volume) ;;     (* [Math.min] converts its arguments *)
  let vol := Math_max (Int 0) (Math_min (Int 100) n) in
  if platform =? "linux" then setVolumeLinux vol
  else if platform =? "darwin" then setVolumeMac vol
  else if platform =? "win32" then setVolumeWindows vol
  else unsupported.

Definition getMuted : M World bool :=
  if platform =? "linux" then getMutedLinux
  else if platform =? "darwin" then getMutedMac
  else if platform =? "win32" then getMutedWindows
  else unsupported.

Definition setMuted (muted : bool) : M World unit :=
  if platform =? "linux" then setMutedLinux muted
  else if platform =? "darwin" then setMutedMac muted
  else if platform =? "win32" then setMutedWindows muted
  else unsupported.

Definition getOutputDevice : M World string :=
  if platform =? "linux" then getOutputDeviceLinux
  else if platform =? "darwin" then getOutputDeviceMac
  else if platform =? "win32" then getOutputDeviceWindows
  else unsupported.

End WithEnv.
End volumeController.

(** ** src/main.js *)

Module main.

(** The persisted settings read through [store.get]. *)
Record Settings : Type := mkSettings {
  port : Z;
  pollingEnabled : bool;
  pollingInterval : Z;
  autostart : bool
}.

(** The values the module writes on a first run. *)
Definition default_settings : Settings := mkSettings 8080 true 500 false.

Section WithEnv.
Context {env : Env}.

(** The module-level variables, with the machine underneath.  [wss] is
    [None] until the server is started and then holds [wss.clients], a Set
    iterated in insertion order. *)
Record State : Type := mkState {
  world : World;
  store : Settings;
  wss : option (list WebSocket);
  pollingTimer : option Z;
  lastVolume : jsval;
  lastMute : jsval
}.

Definition set_world (st : State) (w : World) : State :=
  mkState w (store st) (wss st) (pollingTimer st) (lastVolume st) (lastMute st).

Definition set_wss (st : State) (c : option (list WebSocket)) : State :=
  mkState (world st) (store st) c (pollingTimer st) (lastVolume st) (lastMute st).

Definition set_pollingTimer (st : State) (t : option Z) : State :=
  mkState (world st) (store st) (wss st) t (lastVolume st) (lastMute st).

Definition set_last (st : State) (volume muted : jsval) : State :=
  mkState (world st) (store st) (wss st) (pollingTimer st) volume muted.

(** [await volumeController.f(...)]: the call acts on the machine only. *)
Definition await {A} (m : M World A) : M State A := fun st =>
  let r := m (world st) in
  mkResult (outcome r) (set_world st (final r)) (emitted r).

(** [ws.send(JSON.stringify(msg))], as the [ws] library (8.x) does it: the
    call throws while the socket is still connecting, hands the message to
    an open socket, and drops it on a closing or closed one.  A failure of
    the transport comes later, through the socket's events, never out of
    the call. *)
Definition send (ws : WebSocket) (msg : Reply) : M State unit :=
  match readyState ws with
  | CONNECTING => throw (mkError "WebSocket is not open: readyState 0 (CONNECTING)")
  | OPEN => emit (Sent (ws_id ws) msg)
  | CLOSING | CLOSED => ret tt
  end.

(** Send current state to a specific client. *)
Definition sendState (ws : WebSocket) : M State unit :=
  try_catch
    (volume <- await volumeController.getVolume ;;
     muted <- await volumeController.getMuted ;;
     device <- await volumeController.getOutputDevice ;;
     send ws (StateMsg volume muted device))
    (fun error => console_error "Error getting state:" error).

(** The loop [wss.clients.forEach(...)] of [broadcastState]. *)
Definition fanout (state : Reply) (clients : list WebSocket) : M State unit :=
  forEach (fun client =>
             if ReadyState_eqb (readyState client) OPEN
             then send client state
             else ret tt)
          clients.

(** Broadcast state to all connected clients. *)
Definition broadcastState : M State unit :=
  st <- get ;;
  match wss st with
  | None => ret tt
  | Some _ =>
      try_catch
        (volume <- await volumeController.getVolume ;;
         muted <- await volumeController.getMuted ;;
         device <- await volumeController.getOutputDevice ;;
         let state := StateMsg volume muted device in
         st' <- get ;;
         fanout state (match wss st' with Some clients => clients | None => [] end))
        (fun error => console_error "Error broadcasting state:" error)
  end.

(** Handle incoming WebSocket messages.  [broadcastState()] and
    [sendState(ws)] are called without [await]; they are run here to their
    end before the next event, and nothing they raise could reach the
    caller. *)
Definition handleMessage (data : jsval) (ws : WebSocket) : M State unit :=
  match data with
  | JUndefined | JNull =>
      throw (mkError ("Cannot destructure property 'action' of 'data' as it is "
                      ++ (match data with JNull => "null" | _ => "undefined" end)
                      ++ "."))
  | _ =>
      let action := getProp data "action" in
      let value := getProp data "value" in
      if strict_eq action (JStr "setVolume") then
        await (volumeController.setVolume value) ;;
        broadcastState
      else if strict_eq action (JStr "getState") then
        sendState ws
      else if strict_eq action (JStr "increaseVolume") then
        currentVol <- await volumeController.getVolume ;;
        sum <- run (js_add (JNum currentVol) value) ;;
        n <- run (ToNumber sum) ;;
        await (volumeController.setVolume (JNum (Math_min (Int 100) n))) ;;
        broadcastState
      else if strict_eq action (JStr "decreaseVolume") then
        vol <- await volumeController.getVolume ;;
        difference <- run (js_sub (JNum vol) value) ;;
        n <- run (ToNumber difference) ;;
        await (volumeController.setVolume (JNum (Math_max (Int 0) n))) ;;
        broadcastState
      else if strict_eq action (JStr "mute") then
        await (volumeController.setMuted true) ;;
        broadcastState
      else if strict_eq action (JStr "unmute") then
        await (volumeController.setMuted false) ;;
        broadcastState
      else if strict_eq action (JStr "toggleMute") then
        isMuted <- await volumeController.getMuted ;;
        await (volumeController.setMuted (negb isMuted)) ;;
        broadcastState
      else if strict_eq action (JStr "isMuted") then
        sendState ws
      else
        send ws (ErrorMsg "Unknown action")
  end.

(** The [message] listener of a connection.  A [Throw] outcome is a
    rejection nobody handles. *)
Definition onMessage (message : Inbound) (ws : WebSocket) : M State unit :=
  try_catch
    (match message with
     | Malformed e => throw e
     | Parsed data => handleMessage data ws
     end)
    (fun error =>
       console_error "Error handling message:" error ;;
       send ws (ErrorMsg (JS.message error))).

(** Start WebSocket server. *)
Definition startWebSocketServer : M State unit :=
  st <- get ;;
  modify (fun st => set_wss st (Some [])) ;;
  console_log ("WebSocket server started on port " ++ string_of_Z (port (store st))).

(** The [connection] listener; the library has put [ws] into
    [wss.clients] by then. *)
Definition onConnection (ws : WebSocket) : M State unit :=
  modify (fun st =>
            set_wss st (match wss st with
                        | Some clients => Some (clients ++ [ws])%list
                        | None => None
                        end)) ;;
  console_log "Client connected" ;;
  sendState ws.

(** The [close] listener; the library has taken [ws] out of
    [wss.clients]. *)
Definition onClose (ws : WebSocket) : M State unit :=
  modify (fun st =>
            set_wss st (match wss st with
                        | Some clients =>
                            Some (filter (fun c => negb (Nat.eqb (ws_id c) (ws_id ws)))
                                         clients)
                        | None => None
                        end)) ;;
  console_log "Client disconnected".

(** One run of the interval callback of [startPolling]. *)
Definition pollTick : M State unit :=
  try_catch
    (volume <- await volumeController.getVolume ;;
     muted <- await volumeController.getMuted ;;
     st <- get ;;
     (* Only broadcast if something changed *)
     if strict_ne (JNum volume) (lastVolume st) || strict_ne (JBool muted) (lastMute st)
     then
       modify (fun st => set_last st (JNum volume) (JBool muted)) ;;
       broadcastState
     else ret tt)
    (fun error => console_error "Error polling:" error).

(** Start polling if enabled. *)
Definition startPolling : M State unit :=
  st <- get ;;
  if pollingEnabled (store st)
  then modify (fun st => set_pollingTimer st (Some (pollingInterval (store st))))
  else ret tt.

Definition stopPolling : M State unit :=
  st <- get ;;
  match pollingTimer st with
  | Some _ => modify (fun st => set_pollingTimer st None)
  | None => ret tt
  end.

(** The timer fires only while it is set. *)
Definition onTimer : M State unit :=
  st <- get ;;
  match pollingTimer st with
  | Some _ => pollTick
  | None => ret tt
  end.

(** The state the module starts in. *)
Definition initial (w : World) (settings : Settings) : State :=
  mkState w settings None None JNull JNull.

End WithEnv.
End main.

(** ** Machines to run the program on *)

Module Hosts.

(** String to number, for the strings the machines below are given: a
    decimal integer literal (a sign, white space around it) gives its
    value, the empty string 0, and a string that is no numeric literal
    NaN.  Numeric literals of other forms (fractions, exponents,
    hexadecimal, [Infinity]) are not among them. *)
Definition decimal_StringToNumber (s : string) : num :=
  match trim s with
  | EmptyString => Int 0
  | t =>
      let (sign, body) :=
        match t with
        | String "-" b => (-1, b)
        | String "+" b => (1, b)
        | _ => (1, t)
        end in
      let (d, rest) := span_digits body in
      match rest, read_digits 10 d None with
      | EmptyString, Some v => Int (sign * v)
      | _, _ => NaN
      end
  end.

(** *** A Linux machine with a working mixer *)

Record Mixer : Type := mkMixer { mixer_volume : Z; mixer_muted : bool }.

Definition amixer_report (m : Mixer) : string :=
  "Simple mixer control 'Master',0" ++ nl ++
  "  Capabilities: pvolume pvolume-joined pswitch pswitch-joined" ++ nl ++
  "  Playback channels: Mono" ++ nl ++
  "  Mono: Playback 52 [" ++ string_of_Z (mixer_volume m) ++ "%] [-8.25dB] [" ++
  (if mixer_muted m then "off" else "on") ++ "]" ++ nl.

Definition amixer (cmd : string) (m : Mixer) : exec_result * Mixer :=
  if (cmd =? "amixer get Master") || (cmd =? "amixer") then (ExecOk (amixer_report m), m)
  else if cmd =? "amixer set Master mute" then
    let m' := mkMixer (mixer_volume m) true in (ExecOk (amixer_report m'), m')
  else if cmd =? "amixer set Master unmute" then
    let m' := mkMixer (mixer_volume m) false in (ExecOk (amixer_report m'), m')
  else
    match drop_prefix "amixer set Master " cmd with
    | Some arg =>
        let (d, rest) := span_digits arg in
        match read_digits 10 d None with
        | Some v =>
            if rest =? "%" then
              let m' := mkMixer (Z.min 100 v) (mixer_muted m) in
              (ExecOk (amixer_report m'), m')
            else (ExecErr (mkError "amixer: Invalid command!"), m)
        | None => (ExecErr (mkError "amixer: Invalid command!"), m)
        end
    | None => (ExecErr (mkError ("Command failed: " ++ cmd)), m)
    end.

Definition linux_mixer : Env :=
  {| World := Mixer; platform := "linux"; exec := amixer;
     StringToNumber := decimal_StringToNumber |}.

(** *** A macOS machine *)

Record Mac : Type := mkMac { mac_volume : Z; mac_muted : bool }.

Definition osascript (cmd : string) (m : Mac) : exec_result * Mac :=
  if cmd =? "osascript -e " ++ dq ++ "output volume of (get volume settings)" ++ dq
  then (ExecOk (string_of_Z (mac_volume m) ++ nl), m)
  else if cmd =? "osascript -e " ++ dq ++ "output muted of (get volume settings)" ++ dq
  then (ExecOk ((if mac_muted m then "true" else "false") ++ nl), m)
  else if cmd =? "osascript -e " ++ dq ++ "set volume with output muted" ++ dq
  then (ExecOk EmptyString, mkMac (mac_volume m) true)
  else if cmd =? "osascript -e " ++ dq ++ "set volume without output muted" ++ dq
  then (ExecOk EmptyString, mkMac (mac_volume m) false)
  else if String.prefix "system_profiler SPAudioDataType" cmd
  then (ExecOk ("MacBook Pro Speakers" ++ nl), m)
  else
    match drop_prefix ("osascript -e " ++ dq ++ "set volume output volume ") cmd with
    | Some arg =>
        let (d, rest) := span_digits arg in
        match read_digits 10 d None with
        | Some v =>
            if rest =? dq
            then (ExecOk EmptyString, mkMac (Z.min 100 v) (mac_muted m))
            else (ExecErr (mkError "osascript: syntax error"), m)
        | None => (ExecErr (mkError "osascript: syntax error"), m)
        end
    | None => (ExecErr (mkError ("Command failed: " ++ cmd)), m)
    end.

Definition mac : Env :=
  {| World := Mac; platform := "darwin"; exec := osascript;
     StringToNumber := decimal_StringToNumber |}.

(** *** A machine that answers from a table

    Every command listed gets its fixed answer; any other command fails. *)

Fixpoint answer (table : list (string * exec_result)) (cmd : string) : exec_result :=
  match table with
  | [] => ExecErr (mkError ("Command failed: " ++ cmd))
  | (c, r) :: t => if cmd =? c then r else answer t cmd
  end.

Definition scripted (p : string) (table : list (string * exec_result)) : Env :=
  {| World := unit; platform := p;
     exec := fun cmd w => (answer table cmd, w);
     StringToNumber := decimal_StringToNumber |}.

(** A Linux machine on which no command runs ([amixer] is not installed). *)
Definition linux_without_amixer : Env := scripted "linux" [].

(** A macOS machine whose output device has no software volume (a display
    over HDMI, say): [osascript] answers [missing value]. *)
Definition mac_hdmi : Env :=
  scripted "darwin"
    [ ("osascript -e " ++ dq ++ "output volume of (get volume settings)" ++ dq,
       ExecOk ("missing value" ++ nl));
      ("osascript -e " ++ dq ++ "output muted of (get volume settings)" ++ dq,
       ExecOk ("missing value" ++ nl));
      ("system_profiler SPAudioDataType | grep " ++ dq ++ "Default Output Device" ++ dq ++
       " -A 1 | tail -n 1 | sed " ++ dq ++ "s/.*: //" ++ dq,
       ExecOk ("DELL U2720Q" ++ nl)) ].

(** An operating system the controller has no case for. *)
Definition freebsd : Env := scripted "freebsd" [].

End Hosts.

(** ** Concrete situations *)

Module Scenarios.
Import Hosts.

Definition client (i : nat) : WebSocket := mkWebSocket i OPEN.

Definition closing (i : nat) : WebSocket := mkWebSocket i CLOSING.

(** The parsed message [{action, value}], and the one without a value. *)
Definition request (action : string) (value : jsval) : jsval :=
  JObj [("action", JStr action); ("value", value)].

Definition bare (action : string) : jsval := JObj [("action", JStr action)].

(** A started server: listening, polling every 500 ms, nothing polled yet. *)
Definition serving {env : Env} (w : World) (clients : list WebSocket) : main.State :=
  main.mkState w main.default_settings (Some clients) (Some 500) JNull JNull.

End Scenarios.

(** ** Vocabulary of the properties *)

Import main.

(** The platforms the controller has a case for. *)
Definition supported (p : string) : Prop :=
  p = "linux" \/ p = "darwin" \/ p = "win32".

(** [clamp v lo hi], as the specification writes it. *)
Definition clamp (v lo hi : Z) : Z := Z.max lo (Z.min hi v).

(** The messages that reached clients, in order, with their addressee. *)
Definition deliveries (l : list Event) : list (nat * Reply) :=
  flat_map (fun ev => match ev with Sent i m => [(i, m)] | _ => [] end) l.

(** The messages that reached the client [id], in order. *)
Definition inbox (id : nat) (l : list Event) : list Reply :=
  map snd (filter (fun p => Nat.eqb (fst p) id) (deliveries l)).

(** The commands run, in order. *)
Definition commands (l : list Event) : list string :=
  flat_map (fun ev => match ev with Exec c _ => [c] | _ => [] end) l.

(** Every command that failed is directly followed by the [console.error]
    of its error; [pending] is the failure still waiting for its log. *)
Fixpoint logged_after (pending : option Error) (l : list Event) : bool :=
  match l with
  | [] => match pending with None => true | Some _ => false end
  | ev :: t =>
      match pending with
      | Some e =>
          match ev with
          | ConsoleError _ e' => (message e' =? message e) && logged_after None t
          | _ => false
          end
      | None =>
          match ev with
          | Exec _ (ExecErr e) => logged_after (Some e) t
          | _ => logged_after None t
          end
      end
  end.

Definition well_logged (l : list Event) : bool := logged_after None l.

(** No client was sent an error descriptor. *)
Definition no_error_reply (l : list Event) : bool :=
  forallb (fun ev => match ev with Sent _ (ErrorMsg _) => false | _ => true end) l.

(** The eight action names of the wire protocol. *)
Definition recognized (action : jsval) : bool :=
  strict_eq action (JStr "setVolume") || strict_eq action (JStr "increaseVolume") ||
  strict_eq action (JStr "decreaseVolume") || strict_eq action (JStr "mute") ||
  strict_eq action (JStr "unmute") || strict_eq action (JStr "toggleMute") ||
  strict_eq action (JStr "getState") || strict_eq action (JStr "isMuted").

(** The six of them that change the audio state. *)
Definition mutating (action : jsval) : bool :=
  strict_eq action (JStr "setVolume") || strict_eq action (JStr "increaseVolume") ||
  strict_eq action (JStr "decreaseVolume") || strict_eq action (JStr "mute") ||
  strict_eq action (JStr "unmute") || strict_eq action (JStr "toggleMute").

Definition is_open (c : WebSocket) : bool := ReadyState_eqb (readyState c) OPEN.

(** The clients a fan-out sends to: the open ones, in order. *)
Definition reached (clients : list WebSocket) : list WebSocket :=
  filter is_open clients.

(** The three requests that carry a value. *)
Definition volume_action (action : jsval) : bool :=
  strict_eq action (JStr "setVolume") || strict_eq action (JStr "increaseVolume") ||
  strict_eq action (JStr "decreaseVolume").

(** What guarded commands leave behind: commands, each failure with its
    log, and nothing sent to anybody. *)
Definition wrapper_trace (l : list Event) : Prop :=
  well_logged l = true /\ deliveries l = [].

Section Vocabulary.
Context {env : Env}.

(** The command [volumeController.setVolume] runs for [volume] on the
    platform at hand. *)
Definition volume_command (volume : num) : string :=
  if platform =? "linux" then volumeController.setVolumeLinux_command volume
  else if platform =? "darwin" then volumeController.setVolumeMac_command volume
  else volumeController.setVolumeWindows_command volume.

(** The name each platform's [getOutputDevice] falls back to. *)
Definition default_device : string :=
  if platform =? "linux" then "Master"
  else if platform =? "darwin" then "Built-in Output"
  else "Default".

(** The three queries of [sendState] and [broadcastState], as one. *)
Definition observe : M World Reply :=
  volume <- volumeController.getVolume ;;
  muted <- volumeController.getMuted ;;
  device <- volumeController.getOutputDevice ;;
  ret (StateMsg volume muted device).

(** A backend that keeps the mute state it is given: [mu] reads it off the
    machine, [getMuted] reports it, [setMuted] sets it, and the queries
    leave it alone (nothing else changes it in between). *)
Definition faithful_mute (mu : World -> bool) : Prop :=
  (forall w, outcome (volumeController.getMuted w) = Normal (mu w)
             /\ mu (final (volumeController.getMuted w)) = mu w) /\
  (forall b w, mu (final (volumeController.setMuted b w)) = b) /\
  (forall w, mu (final (volumeController.getVolume w)) = mu w) /\
  (forall w, mu (final (volumeController.getOutputDevice w)) = mu w).

(** A value the handler's arithmetic can convert: [Math.min], [+] and [-]
    do not throw on it. *)
Definition convertible (value : jsval) : Prop :=
  exists n, ToNumber value = Normal n.

(** The request carries no value, or one that converts. *)
Definition value_converts (data : jsval) : Prop :=
  volume_action (getProp data "action") = true ->
  convertible (getProp data "value").

(** The arithmetic of the two adjusting requests on the volume [c] the
    backend reported: [Math.min(100, c + value)], [Math.max(0, c - value)]. *)
Definition adjusted (up : bool) (c : num) (value : jsval) : Completion num :=
  if up
  then sum <~ js_add (JNum c) value ;;
       n <~ ToNumber sum ;;
       Normal (Math_min (Int 100) n)
  else difference <~ js_sub (JNum c) value ;;
       n <~ ToNumber difference ;;
       Normal (Math_max (Int 0) n).

(** A value that the arithmetic of the handler converts, and to no number:
    neither the value itself nor its sum with a current volume. *)
Definition non_numeric (value : jsval) : Prop :=
  ToNumber value = Normal NaN /\
  forall c, exists sum,
    js_add (JNum c) value = Normal sum /\ ToNumber sum = Normal NaN.

End Vocabulary.

(** What [main.js] keeps besides the machine: settings, client set, timer
    and the poll snapshot. *)
Definition server_part {env : Env} (st : State)
  : Settings * option (list WebSocket) * option Z * jsval * jsval :=
  (store st, wss st, pollingTimer st, lastVolume st, lastMute st).

(** A computation that leaves all of that alone. *)
Definition preserves {env : Env} {A} (m : M State A) : Prop :=
  forall st, server_part (final (m st)) = server_part st.

(** A number a volume command may carry: NaN, or an integer from 0 to 100. *)
Definition clamped (n : num) : Prop :=
  n = NaN \/ exists z, n = Int z /\ 0 <= z <= 100.

(** The two read-only requests. *)
Definition reading (action : jsval) : bool :=
  strict_eq action (JStr "getState") || strict_eq action (JStr "isMuted").

(** The number a string of decimal digits denotes, on top of [acc]. *)
Fixpoint uint_value (acc : Z) (d : Decimal.uint) : Z :=
  match d with
  | Decimal.Nil => acc
  | Decimal.D0 l => uint_value (acc * 10 + 0) l
  | Decimal.D1 l => uint_value (acc * 10 + 1) l
  | Decimal.D2 l => uint_value (acc * 10 + 2) l
  | Decimal.D3 l => uint_value (acc * 10 + 3) l
  | Decimal.D4 l => uint_value (acc * 10 + 4) l
  | Decimal.D5 l => uint_value (acc * 10 + 5) l
  | Decimal.D6 l => uint_value (acc * 10 + 6) l
  | Decimal.D7 l => uint_value (acc * 10 + 7) l
  | Decimal.D8 l => uint_value (acc * 10 + 8) l
  | Decimal.D9 l => uint_value (acc * 10 + 9) l
  end.

Fixpoint all_digits (s : string) : bool :=
  match s with
  | EmptyString => true
  | String c t => is_digit c && all_digits t
  end.

Definition starts_with_digit (s : string) : bool :=
  match s with
  | EmptyString => false
  | String c _ => is_digit c
  end.

(** The string has no opening bracket. *)
Fixpoint no_bracket (s : string) : bool :=
  match s with
  | EmptyString => true
  | String c t => negb (Ascii.eqb c "[") && no_bracket t
  end.

(** No byte of the string is or begins a white space character. *)
Fixpoint no_space (s : string) : bool :=
  match s with
  | EmptyString => true
  | String c t => negb (is_space c) && negb (wide_lead c) && no_space t
  end.

Section Volume_vocabulary.
Context {env : Env}.

(** A backend that keeps the volume it is given: [vol] reads it off the
    machine, [getVolume] reports it, running the set-volume command for an
    integer from 0 to 100 sets it, and the queries leave it alone. *)
Definition faithful_volume (vol : World -> Z) : Prop :=
  (forall w, outcome (volumeController.getVolume w) = Normal (Int (vol w))
             /\ vol (final (volumeController.getVolume w)) = vol w) /\
  (forall n w, 0 <= n <= 100 -> vol (snd (exec (volume_command (Int n)) w)) = n) /\
  (forall w, vol (final (volumeController.getMuted w)) = vol w) /\
  (forall w, vol (final (volumeController.getOutputDevice w)) = vol w).

End Volume_vocabulary.

(** ** The persisted settings at start-up (the head of src/main.js) *)

Module settings.

(** The content of the [electron-store] file: what each key holds, if it
    holds anything. *)
Definition Store : Type := string -> option jsval.

(** [store.has(key)] *)
Definition has (store : Store) (key : string) : bool :=
  match store key with
  | Some _ => true
  | None => false
  end.

(** [store.get(key)] *)
Definition get (store : Store) (key : string) : jsval :=
  match store key with
  | Some v => v
  | None => JUndefined
  end.

(** [store.set(key, value)] *)
Definition set (store : Store) (key : string) (value : jsval) : Store :=
  fun k => if k =? key then Some value else store k.

(** A store file with nothing in it. *)
Definition empty : Store := fun _ => None.

(** Set default values if not present. *)
Definition set_defaults (store : Store) : Store :=
  let store := if negb (has store "port")
               then set store "port" (JNum (Int 8080)) else store in
  let store := if negb (has store "pollingEnabled")
               then set store "pollingEnabled" (JBool true) else store in
  let store := if negb (has store "pollingInterval")
               then set store "pollingInterval" (JNum (Int 500)) else store in
  let store := if negb (has store "autostart")
               then set store "autostart" (JBool false) else store in
  store.

(** The four keys the program uses. *)
Definition known (key : string) : bool :=
  (key =? "port") || (key =? "pollingEnabled") ||
  (key =? "pollingInterval") || (key =? "autostart").

End settings.

(** The string has no line feed. *)
Fixpoint one_line (s : string) : bool :=
  match s with
  | EmptyString => true
  | String c t => negb (Ascii.eqb c (ascii_of_nat 10)) && one_line t
  end.

(** ** More machines and situations *)

Module More_hosts.

(** A Linux machine with a stereo output whose two channels differ. *)
Definition stereo_report : string :=
  "Simple mixer control 'Master',0" ++ nl ++
  "  Playback channels: Front Left - Front Right" ++ nl ++
  "  Front Left: Playback 26214 [40%] [on]" ++ nl ++
  "  Front Right: Playback 39321 [60%] [on]" ++ nl.

Definition linux_stereo : Env :=
  Hosts.scripted "linux" [("amixer get Master", ExecOk stereo_report)].

(** A server whose poll snapshot holds [volume] and [muted]. *)
Definition polled {env : Env} (w : World) (clients : list WebSocket)
    (volume : Z) (muted : bool) : main.State :=
  main.mkState w main.default_settings (Some clients) (Some 500)
               (JNum (Int volume)) (JBool muted).

End More_hosts.

(** * Properties *)

(** ** Traces *)

Lemma logged_after_app (a b : list Event) :
  forall p, logged_after p a = true -> well_logged b = true ->
            logged_after p (a ++ b) = true.
Proof.
  induction a as [|ev a IH]; intros p Ha Hb; cbn in *.
  - destruct p; [discriminate | exact Hb].
  - destruct p as [e|].
    + destruct ev; try discriminate.
      apply andb_true_iff in Ha as [He Ha]. rewrite He. cbn. now apply IH.
    + destruct ev as [c [out|e]| | |]; now apply IH.
Qed.

Lemma well_logged_app (a b : list Event) :
  well_logged a = true -> well_logged b = true -> well_logged (a ++ b) = true.
Proof. apply logged_after_app. Qed.

Lemma deliveries_app (a b : list Event) :
  deliveries (a ++ b) = (deliveries a ++ deliveries b)%list.
Proof. apply flat_map_app. Qed.

Lemma commands_app (a b : list Event) :
  commands (a ++ b) = (commands a ++ commands b)%list.
Proof. apply flat_map_app. Qed.

Lemma inbox_app (id : nat) (a b : list Event) :
  inbox id (a ++ b) = (inbox id a ++ inbox id b)%list.
Proof.
  unfold inbox. now rewrite deliveries_app, filter_app, map_app.
Qed.

Lemma no_error_reply_app (a b : list Event) :
  no_error_reply (a ++ b) = no_error_reply a && no_error_reply b.
Proof. apply forallb_app. Qed.

Lemma commands_app_r (a b : list Event) :
  commands b <> [] -> commands (a ++ b) <> [].
Proof.
  intros Hb H. rewrite commands_app in H. now apply app_eq_nil in H as [_ H].
Qed.

Lemma inbox_silent (id : nat) (l : list Event) :
  deliveries l = [] -> inbox id l = [].
Proof. unfold inbox. now intros ->. Qed.

Lemma silent_no_error_reply (l : list Event) :
  deliveries l = [] -> no_error_reply l = true.
Proof.
  induction l as [|ev l IH]; [reflexivity|].
  destruct ev; cbn; try exact IH. discriminate.
Qed.

(** ** The monad *)

Section Monad_facts.
Context {S A B : Type}.

Lemma bind_Normal (m : M S A) (k : A -> M S B) (s : S) (a : A) :
  outcome (m s) = Normal a ->
  bind m k s =
  mkResult (outcome (k a (final (m s)))) (final (k a (final (m s))))
           (emitted (m s) ++ emitted (k a (final (m s)))).
Proof. unfold bind. now intros ->. Qed.

Lemma bind_Throw (m : M S A) (k : A -> M S B) (s : S) (e : Error) :
  outcome (m s) = Throw e ->
  bind m k s = mkResult (Throw e) (final (m s)) (emitted (m s)).
Proof. unfold bind. now intros ->. Qed.

Lemma try_catch_Normal (body : M S A) (handler : Error -> M S A) (s : S) (a : A) :
  outcome (body s) = Normal a -> try_catch body handler s = body s.
Proof. unfold try_catch. now intros ->. Qed.

Lemma try_catch_Throw (body : M S A) (handler : Error -> M S A) (s : S) (e : Error) :
  outcome (body s) = Throw e ->
  try_catch body handler s =
  mkResult (outcome (handler e (final (body s)))) (final (handler e (final (body s))))
           (emitted (body s) ++ emitted (handler e (final (body s)))).
Proof. unfold try_catch. now intros ->. Qed.

Lemma bind_run (c : Completion A) (k : A -> M S B) (s : S) :
  bind (run c) k s =
  match c with
  | Normal a => mkResult (outcome (k a s)) (final (k a s)) (emitted (k a s))
  | Throw e => mkResult (Throw e) s []
  end.
Proof. unfold bind, run. now destruct c. Qed.

End Monad_facts.

(** ** The backend wrappers *)

(** Splits on the platform and reduces the dispatch of the API. *)
Ltac pick Hs :=
  let Hp := fresh "Hp" in
  destruct Hs as [Hp | [Hp | Hp]];
  unfold volumeController.getVolume, volumeController.getMuted,
         volumeController.getOutputDevice, volumeController.setVolume,
         volumeController.setMuted, volume_command, default_device;
  rewrite Hp; cbn [String.eqb Ascii.eqb Bool.eqb].

(** Runs a wrapper: its one command either answers or fails. *)
Ltac run_wrapper w :=
  unfold volumeController.getVolumeLinux, volumeController.getVolumeMac,
         volumeController.getVolumeWindows, volumeController.getMutedLinux,
         volumeController.getMutedMac, volumeController.getMutedWindows,
         volumeController.getOutputDeviceLinux, volumeController.getOutputDeviceMac,
         volumeController.getOutputDeviceWindows, volumeController.setVolumeLinux,
         volumeController.setVolumeMac, volumeController.setVolumeWindows,
         volumeController.setMutedLinux, volumeController.setMutedMac,
         volumeController.setMutedWindows,
         try_catch, bind, volumeController.execAsync, ret, console_error, emit;
  destruct (exec _ w) as [[?out|?e] ?w]; cbn.

Section Backend.
Context {env : Env}.
Import volumeController.

Lemma wrapper_trace_app (a b : list Event) :
  wrapper_trace a -> wrapper_trace b -> wrapper_trace (a ++ b).
Proof.
  intros [Ha1 Ha2] [Hb1 Hb2]. split.
  - now apply well_logged_app.
  - now rewrite deliveries_app, Ha2, Hb2.
Qed.

Lemma getVolume_ok (Hs : supported platform) (w : World) :
  exists v, outcome (getVolume w) = Normal v /\ wrapper_trace (emitted (getVolume w)).
Proof.
  unfold wrapper_trace.
  pick Hs; run_wrapper w; rewrite ?String.eqb_refl; eauto.
Qed.

Lemma getMuted_ok (Hs : supported platform) (w : World) :
  exists v, outcome (getMuted w) = Normal v /\ wrapper_trace (emitted (getMuted w)).
Proof.
  unfold wrapper_trace.
  pick Hs; run_wrapper w; rewrite ?String.eqb_refl; eauto.
Qed.

Lemma getOutputDevice_ok (Hs : supported platform) (w : World) :
  exists v, outcome (getOutputDevice w) = Normal v
            /\ wrapper_trace (emitted (getOutputDevice w)).
Proof.
  unfold wrapper_trace.
  pick Hs; run_wrapper w; rewrite ?String.eqb_refl; eauto.
Qed.

Lemma setMuted_ok (Hs : supported platform) (b : bool) (w : World) :
  outcome (setMuted b w) = Normal tt /\ wrapper_trace (emitted (setMuted b w)).
Proof.
  unfold wrapper_trace.
  pick Hs; run_wrapper w; rewrite ?String.eqb_refl; eauto.
Qed.

(** When the conversion of its argument throws, [setVolume] throws that
    error and nothing is run, whatever the platform. *)
Lemma setVolume_throws (volume : jsval) (e : Error) (w : World) :
  ToNumber volume = Throw e ->
  setVolume volume w = mkResult (Throw e) w [].
Proof. intros Hn. unfold setVolume, bind, run. now rewrite Hn. Qed.

(** Otherwise [setVolume] runs exactly one command, the one for the
    clamped value, and swallows its failure after logging it. *)
Lemma setVolume_run (Hs : supported platform) (volume : jsval) (n : num) (w : World) :
  ToNumber volume = Normal n ->
  let cmd := volume_command (Math_max (Int 0) (Math_min (Int 100) n)) in
  setVolume volume w =
  mkResult (Normal tt) (snd (exec cmd w))
    (Exec cmd (fst (exec cmd w)) ::
     match fst (exec cmd w) with
     | ExecOk _ => []
     | ExecErr e => [ConsoleError "Error setting volume:" e]
     end).
Proof.
  intros Hn. unfold setVolume, bind, run. rewrite Hn. cbn [outcome final emitted app].
  pick Hs; run_wrapper w; reflexivity.
Qed.

Lemma setVolume_ok (Hs : supported platform) (volume : jsval) (w : World) :
  convertible volume ->
  outcome (setVolume volume w) = Normal tt /\ wrapper_trace (emitted (setVolume volume w)).
Proof.
  intros [n Hn]. rewrite (setVolume_run Hs volume n w Hn). cbn. unfold wrapper_trace.
  destruct (fst (exec _ w)); cbn; rewrite ?String.eqb_refl; auto.
Qed.

(** The two setters do run a command. *)
Lemma setVolume_runs (Hs : supported platform) (volume : jsval) (w : World) :
  convertible volume ->
  commands (emitted (setVolume volume w)) <> [].
Proof. intros [n Hn]. rewrite (setVolume_run Hs volume n w Hn). discriminate. Qed.

Lemma convertible_number (n : num) : convertible (JNum n).
Proof. now exists n. Qed.

Lemma setMuted_runs (Hs : supported platform) (b : bool) (w : World) :
  commands (emitted (setMuted b w)) <> [].
Proof. pick Hs; run_wrapper w; discriminate. Qed.

End Backend.

(** ** Queries, fan-out and broadcast *)

Section Broadcast.
Context {env : Env}.
Import volumeController.
#[local] Arguments fanout : simpl never.

Lemma unsupported_platform (Hn : ~ supported platform) :
  (platform =? "linux") = false /\ (platform =? "darwin") = false /\
  (platform =? "win32") = false.
Proof.
  unfold supported in Hn.
  repeat split; apply String.eqb_neq; intros H; apply Hn; auto.
Qed.

(** On a supported platform the three queries always answer. *)
Lemma observe_ok (Hs : supported platform) (w : World) :
  exists volume muted device,
    outcome (observe w) = Normal (StateMsg volume muted device)
    /\ outcome (getVolume w) = Normal volume
    /\ outcome (getMuted (final (getVolume w))) = Normal muted
    /\ final (observe w) =
       final (getOutputDevice (final (getMuted (final (getVolume w)))))
    /\ wrapper_trace (emitted (observe w)).
Proof.
  destruct (getVolume_ok Hs w) as (v & Hv & Tv).
  destruct (getMuted_ok Hs (final (getVolume w))) as (m & Hm & Tm).
  destruct (getOutputDevice_ok Hs (final (getMuted (final (getVolume w)))))
    as (d & Hd & Td).
  exists v, m, d. unfold observe.
  rewrite (bind_Normal _ _ _ _ Hv). cbn.
  rewrite (bind_Normal _ _ _ _ Hm). cbn.
  rewrite (bind_Normal _ _ _ _ Hd). cbn.
  rewrite app_nil_r.
  repeat split; auto; try (apply Tv || apply Tm || apply Td).
  - apply well_logged_app; [apply Tv|]. apply well_logged_app; [apply Tm | apply Td].
  - rewrite !deliveries_app.
    destruct Tv as [_ ->], Tm as [_ ->], Td as [_ ->]. reflexivity.
Qed.

(** On any other platform the first query throws, and nothing is run. *)
Lemma observe_unsupported (Hn : ~ supported platform) (w : World) :
  observe w = mkResult (Throw (mkError ("Unsupported platform: " ++ platform))) w [].
Proof.
  destruct (unsupported_platform Hn) as (H1 & H2 & H3).
  unfold observe, getVolume, bind. rewrite H1, H2, H3. reflexivity.
Qed.

(** The loop never touches the state and never throws: a [send] is made
    on an open socket only, where it hands the message over. *)
Lemma fanout_run (state : Reply) (clients : list WebSocket) (st : State) :
  fanout state clients st =
  mkResult (Normal tt) st (map (fun c => Sent (ws_id c) state) (reached clients)).
Proof.
  induction clients as [|c t IH]; [reflexivity|].
  change (fanout state (c :: t) st)
    with (bind (if ReadyState_eqb (readyState c) OPEN
                then send c state else ret tt)
               (fun _ => fanout state t) st).
  unfold reached. cbn [filter]. fold (reached t). unfold bind, is_open, send.
  destruct (readyState c); cbn; rewrite IH; reflexivity.
Qed.

(** [broadcastState], step by step. *)
Lemma broadcastState_run (st : State) :
  broadcastState st =
  match wss st with
  | None => mkResult (Normal tt) st []
  | Some clients =>
      let q := observe (world st) in
      let st1 := set_world st (final q) in
      match outcome q with
      | Normal state =>
          mkResult (Normal tt) st1
            (emitted q ++ map (fun c => Sent (ws_id c) state) (reached clients))
      | Throw e =>
          mkResult (Normal tt) st1
            (emitted q ++ [ConsoleError "Error broadcasting state:" e])
      end
  end.
Proof.
  unfold broadcastState, bind at 1, get. cbn.
  destruct (wss st) as [clients|] eqn:Hw; [|reflexivity].
  unfold observe, try_catch, bind, await, get, ret. cbn.
  destruct (outcome (getVolume (world st))); cbn; [|reflexivity].
  destruct (outcome (getMuted _)); cbn; [|reflexivity].
  destruct (outcome (getOutputDevice _)); cbn; [|now rewrite <- !app_assoc].
  rewrite Hw, fanout_run. cbn. now rewrite <- !app_assoc.
Qed.

End Broadcast.

(** ** Who a fan-out reaches *)

Lemma is_open_true (c : WebSocket) : is_open c = true <-> readyState c = OPEN.
Proof. unfold is_open. destruct (readyState c); cbn; split; congruence. Qed.

Lemma is_open_false (c : WebSocket) : is_open c = false <-> readyState c <> OPEN.
Proof. unfold is_open. destruct (readyState c); cbn; split; congruence. Qed.

Lemma reached_sound (clients : list WebSocket) (c : WebSocket) :
  In c (reached clients) -> In c clients /\ is_open c = true.
Proof. unfold reached. apply filter_In. Qed.

Lemma inbox_sent_other (id : nat) (state : Reply) (l : list WebSocket) :
  (forall c, In c l -> ws_id c <> id) ->
  inbox id (map (fun c => Sent (ws_id c) state) l) = [].
Proof.
  induction l as [|x t IH]; intros H; [reflexivity|].
  cbn. unfold inbox in *. cbn.
  destruct (Nat.eqb_spec (ws_id x) id) as [E|E].
  - exfalso. apply (H x); auto. now left.
  - apply IH. intros c Hc. apply H. now right.
Qed.

(** A client on a duplicate-free list that is sent to gets the message
    once. *)
Lemma inbox_sent_once (state : Reply) (l : list WebSocket) (c : WebSocket) :
  NoDup (map ws_id l) -> In c l ->
  inbox (ws_id c) (map (fun c => Sent (ws_id c) state) l) = [state].
Proof.
  induction l as [|x t IH]; intros Hn Hc; [contradiction|].
  cbn in Hn. inversion Hn as [|? ? Hx Ht]; subst.
  cbn. unfold inbox in *. cbn.
  destruct Hc as [<- | Hc].
  - rewrite Nat.eqb_refl. cbn. f_equal.
    apply (inbox_sent_other (ws_id x) state t).
    intros c Hc E. apply Hx. rewrite <- E. now apply in_map.
  - destruct (Nat.eqb_spec (ws_id x) (ws_id c)) as [E|E].
    + exfalso. apply Hx. rewrite E. now apply in_map.
    + now apply IH.
Qed.

Lemma NoDup_ids_filter (f : WebSocket -> bool) (l : list WebSocket) :
  NoDup (map ws_id l) -> NoDup (map ws_id (filter f l)).
Proof.
  induction l as [|x t IH]; intros Hn; [constructor|].
  cbn in Hn. inversion Hn as [|? ? Hx Ht]; subst. cbn.
  destruct (f x); [|auto]. cbn. constructor; [|auto].
  intros Hin. apply Hx. apply in_map_iff in Hin as (c & E & Hc).
  apply filter_In in Hc as [Hc _]. rewrite <- E. now apply in_map.
Qed.

Lemma NoDup_ids_same (l : list WebSocket) (a b : WebSocket) :
  NoDup (map ws_id l) -> In a l -> In b l -> ws_id a = ws_id b -> a = b.
Proof.
  induction l as [|x t IH]; intros Hn Ha Hb E; [contradiction|].
  cbn in Hn. inversion Hn as [|? ? Hx Ht]; subst.
  destruct Ha as [<- | Ha], Hb as [<- | Hb]; auto.
  - exfalso. apply Hx. rewrite E. now apply in_map.
  - exfalso. apply Hx. rewrite <- E. now apply in_map.
Qed.

Section Delivery.
Context {env : Env}.

(** C2: a broadcast on a supported platform ends normally whatever the
    state of the connections.  It sends the state just queried to the open
    clients, in order; so every client whose connection is open receives
    the state message exactly once, and a client whose connection is not
    open (one that is mid-close, say) is skipped and receives nothing.  No
    [send] of the loop can end the broadcast: made on an open socket, the
    call does not throw, and the clients that follow are served all the
    same. *)
Theorem broadcast_delivery (Hs : supported platform)
    (st : State) (clients : list WebSocket) :
  wss st = Some clients ->
  NoDup (map ws_id clients) ->
  let r := broadcastState st in
  exists state,
    outcome (observe (world st)) = Normal state /\
    outcome r = Normal tt /\
    deliveries (emitted r) =
      map (fun c => (ws_id c, state)) (filter is_open clients) /\
    (forall c, In c clients -> readyState c = OPEN ->
               inbox (ws_id c) (emitted r) = [state]) /\
    (forall c, In c clients -> readyState c <> OPEN ->
               inbox (ws_id c) (emitted r) = []) /\
    (forall c st', readyState c = OPEN ->
                   outcome (send c state st') = Normal tt).
Proof.
  intros Hw Hn r. subst r. rewrite broadcastState_run, Hw. cbn zeta.
  destruct (observe_ok Hs (world st)) as (v & m & d & Hq & _ & _ & _ & Tq).
  rewrite Hq. exists (StateMsg v m d). cbn [outcome emitted].
  destruct Tq as [_ Tq].
  assert (Hin : forall id,
             inbox id (emitted (observe (world st)) ++
                       map (fun c => Sent (ws_id c) (StateMsg v m d)) (reached clients)) =
             inbox id (map (fun c => Sent (ws_id c) (StateMsg v m d)) (reached clients))).
  { intros id. now rewrite !inbox_app, (inbox_silent _ _ Tq). }
  split; [reflexivity|]. split; [reflexivity|]. split; [|split; [|split]].
  - rewrite deliveries_app, Tq. cbn [app]. unfold reached.
    induction (filter is_open clients) as [|c t IH]; cbn; [reflexivity|].
    now rewrite <- IH.
  - intros c Hc Ho. rewrite Hin. apply inbox_sent_once.
    + now apply NoDup_ids_filter.
    + apply filter_In. split; auto. now apply is_open_true.
  - intros c Hc Ho. rewrite Hin.
    apply inbox_sent_other. intros c' Hc' E.
    apply reached_sound in Hc' as (Hc'1 & Hc'2).
    apply is_open_true in Hc'2.
    rewrite (NoDup_ids_same clients c' c Hn Hc'1 Hc E) in Hc'2. contradiction.
  - intros c st' Ho. unfold send. now rewrite Ho.
Qed.

End Delivery.

(** ** The message handler *)

Lemma strict_eq_JStr (a : jsval) (s : string) :
  strict_eq a (JStr s) = true -> a = JStr s.
Proof.
  destruct a; cbn; try discriminate. intros H. now apply String.eqb_eq in H as ->.
Qed.

(** Reduces the [switch] of [handleMessage] once the action is known. *)
Ltac switch_on Ha :=
  match type of Ha with
  | getProp ?data _ = _ =>
      destruct data; cbn in Ha; try discriminate Ha;
      unfold handleMessage; cbn [getProp]; rewrite Ha;
      cbn [strict_eq String.eqb Ascii.eqb Bool.eqb]
  end.

Section Handler.
Context {env : Env}.
Import volumeController.
#[local] Arguments broadcastState : simpl never.

Lemma onMessage_Normal (data : jsval) (ws : WebSocket) (st : State) (a : unit) :
  outcome (handleMessage data ws st) = Normal a ->
  onMessage (Parsed data) ws st = handleMessage data ws st.
Proof. intros H. unfold onMessage. now rewrite (try_catch_Normal _ _ _ _ H). Qed.

Lemma await_run {A} (m : M World A) (st : State) :
  await m st = mkResult (outcome (m (world st))) (set_world st (final (m (world st))))
                        (emitted (m (world st))).
Proof. reflexivity. Qed.

Lemma broadcastState_Normal (st : State) : outcome (broadcastState st) = Normal tt.
Proof.
  rewrite broadcastState_run. destruct (wss st); [|reflexivity].
  cbn zeta. destruct (outcome (observe (world st))); reflexivity.
Qed.

Lemma handle_setVolume (data : jsval) (ws : WebSocket) (st : State) :
  getProp data "action" = JStr "setVolume" ->
  handleMessage data ws st =
  (await (setVolume (getProp data "value")) ;; broadcastState) st.
Proof. intros Ha. switch_on Ha. reflexivity. Qed.

Lemma handle_increaseVolume (data : jsval) (ws : WebSocket) (st : State) :
  getProp data "action" = JStr "increaseVolume" ->
  handleMessage data ws st =
  (currentVol <- await getVolume ;;
   sum <- run (js_add (JNum currentVol) (getProp data "value")) ;;
   n <- run (ToNumber sum) ;;
   await (setVolume (JNum (Math_min (Int 100) n))) ;;
   broadcastState) st.
Proof. intros Ha. switch_on Ha. reflexivity. Qed.

Lemma handle_decreaseVolume (data : jsval) (ws : WebSocket) (st : State) :
  getProp data "action" = JStr "decreaseVolume" ->
  handleMessage data ws st =
  (vol <- await getVolume ;;
   difference <- run (js_sub (JNum vol) (getProp data "value")) ;;
   n <- run (ToNumber difference) ;;
   await (setVolume (JNum (Math_max (Int 0) n))) ;;
   broadcastState) st.
Proof. intros Ha. switch_on Ha. reflexivity. Qed.

Lemma handle_mute (data : jsval) (ws : WebSocket) (st : State) :
  getProp data "action" = JStr "mute" ->
  handleMessage data ws st = (await (setMuted true) ;; broadcastState) st.
Proof. intros Ha. switch_on Ha. reflexivity. Qed.

Lemma handle_unmute (data : jsval) (ws : WebSocket) (st : State) :
  getProp data "action" = JStr "unmute" ->
  handleMessage data ws st = (await (setMuted false) ;; broadcastState) st.
Proof. intros Ha. switch_on Ha. reflexivity. Qed.

Lemma handle_toggleMute (data : jsval) (ws : WebSocket) (st : State) :
  getProp data "action" = JStr "toggleMute" ->
  handleMessage data ws st =
  (isMuted <- await getMuted ;;
   await (setMuted (negb isMuted)) ;;
   broadcastState) st.
Proof. intros Ha. switch_on Ha. reflexivity. Qed.

Lemma handle_getState (data : jsval) (ws : WebSocket) (st : State) :
  getProp data "action" = JStr "getState" ->
  handleMessage data ws st = sendState ws st.
Proof. intros Ha. switch_on Ha. reflexivity. Qed.

End Handler.

Section Mutations.
Context {env : Env}.
Import volumeController.
#[local] Arguments broadcastState : simpl never.

(** A backend call that returns, then the broadcast. *)
Lemma then_broadcast (m : M World unit) (st : State) :
  outcome (m (world st)) = Normal tt ->
  (await m ;; broadcastState) st =
  mkResult (Normal tt)
           (final (broadcastState (set_world st (final (m (world st))))))
           (emitted (m (world st)) ++
            emitted (broadcastState (set_world st (final (m (world st)))))).
Proof.
  intros H. unfold bind. rewrite await_run. cbn. rewrite H.
  now rewrite broadcastState_Normal.
Qed.

Lemma broadcast_trace (Hs : supported platform) (st : State) :
  well_logged (emitted (broadcastState st)) = true /\
  no_error_reply (emitted (broadcastState st)) = true.
Proof.
  rewrite broadcastState_run. destruct (wss st) as [clients|]; [|now cbn].
  cbn zeta. destruct (observe_ok Hs (world st)) as (v & m & d & Hq & _ & _ & _ & Tq & Dq).
  rewrite Hq. cbn [emitted].
  assert (Hs1 : forall l, well_logged (map (fun c => Sent (ws_id c) (StateMsg v m d)) l) = true
                          /\ no_error_reply (map (fun c => Sent (ws_id c) (StateMsg v m d)) l) = true).
  { induction l as [|x t [IH1 IH2]]; cbn; auto. }
  destruct (Hs1 (reached clients)) as [W1 N1].
  split.
  - apply well_logged_app; [exact Tq | exact W1].
  - now rewrite !no_error_reply_app, (silent_no_error_reply _ Dq), N1.
Qed.

(** The conversions of the handler's arithmetic. *)
Lemma ToPrimitive_convertible (value : jsval) :
  convertible value ->
  exists p, ToPrimitive value = Normal p /\
            match p with JArr _ | JObj _ => False | _ => True end.
Proof.
  intros [n Hn]. destruct value as [| |b|m|t|items|props];
    try (eexists; split; [reflexivity | exact I]).
  - cbv beta iota delta [ToNumber ToPrimitive and_then] in *.
    destruct (ToString (JArr items)) as [t|e]; [|discriminate].
    eexists; split; [reflexivity | exact I].
  - cbv beta iota delta [ToNumber ToPrimitive and_then] in *.
    destruct (ToString (JObj props)) as [t|e]; [|discriminate].
    eexists; split; [reflexivity | exact I].
Qed.

Lemma adjusted_convertible (up : bool) (c : num) (value : jsval) :
  convertible value -> exists n, adjusted up c value = Normal n.
Proof.
  intros Hv. pose proof Hv as [m Hm].
  destruct (ToPrimitive_convertible value Hv) as (p & Hp & Pp).
  unfold adjusted, js_add, js_sub. destruct up.
  - cbn [ToPrimitive and_then]. rewrite Hp. cbn [and_then].
    destruct p as [| |b| | | |]; try contradiction; try destruct b;
      cbn; eexists; reflexivity.
  - cbn [ToNumber and_then]. rewrite Hm. cbn. eexists; reflexivity.
Qed.

Lemma adjusted_integers (up : bool) (c delta : Z) :
  adjusted up (Int c) (JNum (Int delta)) =
  Normal (if up then Int (Z.min 100 (c + delta)) else Int (Z.max 0 (c - delta))).
Proof. destruct up; reflexivity. Qed.

(** The two adjusting requests, for a backend that reports [c]: the
    query, the arithmetic, and then either its TypeError or the call of
    [setVolume] and the broadcast. *)
Lemma handle_adjust (up : bool) (c : num) (data : jsval) (ws : WebSocket) (st : State) :
  getProp data "action" = JStr (if up then "increaseVolume" else "decreaseVolume") ->
  outcome (getVolume (world st)) = Normal c ->
  let read := getVolume (world st) in
  let st1 := set_world st (final read) in
  handleMessage data ws st =
  match adjusted up c (getProp data "value") with
  | Normal n =>
      let r := (await (setVolume (JNum n)) ;; broadcastState) st1 in
      mkResult (outcome r) (final r) (emitted read ++ emitted r)
  | Throw e => mkResult (Throw e) st1 (emitted read)
  end.
Proof.
  intros Ha Hc read st1. unfold adjusted.
  destruct up;
    [rewrite handle_increaseVolume by exact Ha
    |rewrite handle_decreaseVolume by exact Ha];
    rewrite (bind_Normal _ _ _ c) by (rewrite await_run; exact Hc);
    rewrite await_run; cbn [final emitted]; fold read; fold st1;
    rewrite bind_run;
    match goal with
    | |- context [and_then ?x _] => destruct x as [y|e]
    end; cbn [and_then outcome final emitted]; try (now rewrite app_nil_r);
    rewrite bind_run; destruct (ToNumber y) as [n|e];
    cbn [and_then outcome final emitted]; now rewrite ?app_nil_r.
Qed.


(** C4: on a supported platform, handling a [setVolume] request with the
    integer [v] first runs the platform's set-volume command for
    [clamp v 0 100], that is [max 0 (min 100 v)], logs its failure if it
    fails, and then runs the broadcast. *)
Theorem setVolume_applies_clamp (Hs : supported platform)
    (v : Z) (data : jsval) (ws : WebSocket) (st : State) :
  getProp data "action" = JStr "setVolume" ->
  getProp data "value" = JNum (Int v) ->
  let cmd := volume_command (Int (clamp v 0 100)) in
  let ran := exec cmd (world st) in
  let st1 := set_world st (snd ran) in
  let r := onMessage (Parsed data) ws st in
  outcome r = Normal tt /\
  final r = final (broadcastState st1) /\
  emitted r =
    (Exec cmd (fst ran) ::
     match fst ran with
     | ExecOk _ => []
     | ExecErr e => [ConsoleError "Error setting volume:" e]
     end ++ emitted (broadcastState st1))%list.
Proof.
  intros Ha Hv cmd ran st1 r.
  assert (E : handleMessage data ws st =
              mkResult (Normal tt) (final (broadcastState st1))
                (Exec cmd (fst ran) ::
                 match fst ran with
                 | ExecOk _ => []
                 | ExecErr e => [ConsoleError "Error setting volume:" e]
                 end ++ emitted (broadcastState st1))%list).
  { rewrite handle_setVolume, Hv by exact Ha.
    rewrite then_broadcast;
      rewrite (setVolume_run Hs (JNum (Int v)) (Int v) _ eq_refl); reflexivity. }
  subst r. rewrite (onMessage_Normal data ws st tt) by now rewrite E.
  rewrite E. auto.
Qed.

(** C5: on a supported platform, when the backend reports the volume [c],
    handling [increaseVolume] (resp. [decreaseVolume]) with the integer
    [delta] queries the backend for the volume and then runs the set-volume
    command for [clamp (c + delta) 0 100] (resp. [clamp (c - delta) 0 100]),
    whatever the cached snapshot holds, and then the broadcast; so from 95
    an increase by 10 gives 100, and from 5 a decrease by 10 gives 0. *)
Theorem adjustVolume_applies_clamp (Hs : supported platform)
    (up : bool) (c delta : Z) (data : jsval) (ws : WebSocket) (st : State) :
  getProp data "action" = JStr (if up then "increaseVolume" else "decreaseVolume") ->
  getProp data "value" = JNum (Int delta) ->
  outcome (getVolume (world st)) = Normal (Int c) ->
  let read := getVolume (world st) in
  let cmd := volume_command (Int (clamp (if up then c + delta else c - delta) 0 100)) in
  let ran := exec cmd (final read) in
  let st2 := set_world st (snd ran) in
  let r := onMessage (Parsed data) ws st in
  (outcome r = Normal tt /\
   final r = final (broadcastState st2) /\
   emitted r =
     (emitted read ++
      Exec cmd (fst ran) ::
      match fst ran with
      | ExecOk _ => []
      | ExecErr e => [ConsoleError "Error setting volume:" e]
      end ++ emitted (broadcastState st2))%list) /\
  clamp (95 + 10) 0 100 = 100 /\ clamp (5 - 10) 0 100 = 0.
Proof.
  intros Ha Hv Hc read cmd ran st2 r. split; [|split; reflexivity].
  assert (E : handleMessage data ws st =
              mkResult (Normal tt) (final (broadcastState st2))
                (emitted read ++
                 Exec cmd (fst ran) ::
                 match fst ran with
                 | ExecOk _ => []
                 | ExecErr e => [ConsoleError "Error setting volume:" e]
                 end ++ emitted (broadcastState st2))%list).
  { rewrite (handle_adjust up (Int c) data ws st Ha Hc), Hv, adjusted_integers.
    fold read. cbn zeta.
    assert (T : Math_max (Int 0)
                  (Math_min (Int 100)
                     (if up then Int (Z.min 100 (c + delta))
                      else Int (Z.max 0 (c - delta))))
                = Int (clamp (if up then c + delta else c - delta) 0 100)).
    { unfold clamp. destruct up; cbn; f_equal; lia. }
    rewrite then_broadcast; cbn [world set_world];
      rewrite (setVolume_run Hs (JNum _) _ _ eq_refl); [|reflexivity].
    cbn zeta. rewrite T. reflexivity. }
  subst r. rewrite (onMessage_Normal data ws st tt) by now rewrite E.
  rewrite E. auto.
Qed.

End Mutations.

Section Failures.
Context {env : Env}.
Import volumeController.
#[local] Arguments broadcastState : simpl never.

(** Each of the six mutating requests is a run of guarded backend commands
    followed by the broadcast, when the arithmetic on its value, if it has
    any, does not throw. *)
Lemma mutation_run (Hs : supported platform)
    (data : jsval) (ws : WebSocket) (st : State) :
  mutating (getProp data "action") = true ->
  value_converts data ->
  exists pre w1,
    wrapper_trace pre /\ commands pre <> [] /\
    handleMessage data ws st =
    mkResult (Normal tt) (final (broadcastState (set_world st w1)))
             (pre ++ emitted (broadcastState (set_world st w1))).
Proof.
  unfold mutating, value_converts. rewrite !orb_true_iff.
  assert (Adjust : forall up : bool,
            getProp data "action" =
              JStr (if up then "increaseVolume" else "decreaseVolume") ->
            convertible (getProp data "value") ->
            exists pre w1,
              wrapper_trace pre /\ commands pre <> [] /\
              handleMessage data ws st =
              mkResult (Normal tt) (final (broadcastState (set_world st w1)))
                       (pre ++ emitted (broadcastState (set_world st w1)))).
  { intros up Ha Hv.
    destruct (getVolume_ok Hs (world st)) as (c & Hc & Tc).
    destruct (adjusted_convertible up c _ Hv) as [n Hn].
    rewrite (handle_adjust up c data ws st Ha Hc), Hn. cbn zeta.
    destruct (setVolume_ok Hs (JNum n) (final (getVolume (world st)))
                (convertible_number n)) as [Ho T].
    pose proof (setVolume_runs Hs (JNum n) (final (getVolume (world st)))
                  (convertible_number n)) as R.
    rewrite then_broadcast by exact Ho. cbn [outcome final emitted world set_world].
    rewrite app_assoc. do 2 eexists. split; [|split; [|reflexivity]].
    - now apply wrapper_trace_app.
    - now apply commands_app_r. }
  intros [[[[[Ha | Ha] | Ha] | Ha] | Ha] | Ha] Hv; apply strict_eq_JStr in Ha.
  - rewrite handle_setVolume by exact Ha.
    assert (Hc : convertible (getProp data "value")) by (apply Hv; now rewrite Ha).
    destruct (setVolume_ok Hs (getProp data "value") (world st) Hc) as [Ho T].
    rewrite then_broadcast by exact Ho.
    do 2 eexists. split; [exact T|]. split; [|reflexivity].
    now apply setVolume_runs.
  - apply (Adjust true Ha). apply Hv. now rewrite Ha.
  - apply (Adjust false Ha). apply Hv. now rewrite Ha.
  - rewrite handle_mute by exact Ha.
    destruct (setMuted_ok Hs true (world st)) as [Ho T].
    rewrite then_broadcast by exact Ho.
    do 2 eexists. split; [exact T|]. split; [|reflexivity].
    now apply setMuted_runs.
  - rewrite handle_unmute by exact Ha.
    destruct (setMuted_ok Hs false (world st)) as [Ho T].
    rewrite then_broadcast by exact Ho.
    do 2 eexists. split; [exact T|]. split; [|reflexivity].
    now apply setMuted_runs.
  - rewrite handle_toggleMute by exact Ha.
    destruct (getMuted_ok Hs (world st)) as (m & Hm & Tm).
    rewrite (bind_Normal _ _ _ m) by (rewrite await_run; exact Hm).
    rewrite await_run. cbn [final emitted].
    destruct (setMuted_ok Hs (negb m) (final (getMuted (world st)))) as [Ho T].
    pose proof (setMuted_runs Hs (negb m) (final (getMuted (world st)))) as R.
    rewrite then_broadcast by exact Ho. cbn [outcome final emitted world set_world].
    rewrite app_assoc. do 2 eexists. split; [|split; [|reflexivity]].
    + now apply wrapper_trace_app.
    + now apply commands_app_r.
Qed.

(** The same through the message listener, which has nothing to catch. *)
Lemma mutation_handled (Hs : supported platform)
    (data : jsval) (ws : WebSocket) (st : State) :
  mutating (getProp data "action") = true ->
  value_converts data ->
  exists pre w1,
    wrapper_trace pre /\ commands pre <> [] /\
    onMessage (Parsed data) ws st = handleMessage data ws st /\
    onMessage (Parsed data) ws st =
    mkResult (Normal tt) (final (broadcastState (set_world st w1)))
             (pre ++ emitted (broadcastState (set_world st w1))).
Proof.
  intros Hm Hv. destruct (mutation_run Hs data ws st Hm Hv) as (pre & w1 & T & R & E).
  exists pre, w1. rewrite (onMessage_Normal data ws st tt) by now rewrite E.
  auto.
Qed.

Lemma mutation_no_error_reply (Hs : supported platform)
    (data : jsval) (ws : WebSocket) (st : State) :
  mutating (getProp data "action") = true ->
  value_converts data ->
  no_error_reply (emitted (onMessage (Parsed data) ws st)) = true.
Proof.
  intros Hm Hv.
  destruct (mutation_handled Hs data ws st Hm Hv) as (pre & w1 & [Tp Dp] & _ & _ & E).
  rewrite E. cbn [emitted].
  destruct (broadcast_trace Hs (set_world st w1)) as [_ Nb].
  now rewrite no_error_reply_app, (silent_no_error_reply _ Dp), Nb.
Qed.

(** A request that carries no value converts whatever it holds. *)
Lemma no_value_converts (data : jsval) :
  volume_action (getProp data "action") = false -> value_converts data.
Proof. intros H H'. congruence. Qed.

(** C1, as amended: on a supported platform, each of the six requests that
    call the backend, when the arithmetic on its value does not throw (it
    throws on no number, string, boolean or [null], and on no missing
    value), runs its commands, and a failing subprocess is caught and
    logged by the backend wrapper itself (every failed command is directly
    followed by its [console.error]); it is not reported to the requester:
    the handler ends normally, no client is sent an error descriptor, and
    the state broadcast of that request still takes place. *)
Theorem backend_failure_logged_not_reported (Hs : supported platform)
    (data : jsval) (ws : WebSocket) (st : State) :
  mutating (getProp data "action") = true ->
  (volume_action (getProp data "action") = true ->
   convertible (getProp data "value")) ->
  let r := onMessage (Parsed data) ws st in
  outcome r = Normal tt /\
  well_logged (emitted r) = true /\
  no_error_reply (emitted r) = true /\
  exists pre w1,
    commands pre <> [] /\
    emitted r = (pre ++ emitted (broadcastState (set_world st w1)))%list /\
    final r = final (broadcastState (set_world st w1)).
Proof.
  intros Hm Hv r.
  pose proof (mutation_no_error_reply Hs data ws st Hm Hv) as Hno.
  destruct (mutation_handled Hs data ws st Hm Hv) as (pre & w1 & [Tp Dp] & R & _ & E).
  subst r. rewrite E in *. cbn [outcome final emitted] in *.
  destruct (broadcast_trace Hs (set_world st w1)) as [Wb _].
  repeat split; auto.
  - now apply well_logged_app.
  - eauto.
Qed.

Lemma undefined_non_numeric : non_numeric JUndefined.
Proof.
  split; [reflexivity|]. intros c. exists (JNum NaN).
  split; [destruct c|]; reflexivity.
Qed.

Lemma non_numeric_convertible (value : jsval) : non_numeric value -> convertible value.
Proof. intros [H _]. now exists NaN. Qed.

(** C10, as amended: on a supported platform, a [setVolume],
    [increaseVolume] or [decreaseVolume] request whose value is missing, or
    is one that the arithmetic converts without throwing and to no number,
    is not validated and draws no error reply: the handler ends normally,
    NaN goes through the clamp unchanged, and the platform's set-volume
    command is run with NaN in it. *)
Theorem missing_value_reaches_command (Hs : supported platform)
    (data : jsval) (ws : WebSocket) (st : State) :
  volume_action (getProp data "action") = true ->
  non_numeric (getProp data "value") ->
  let r := onMessage (Parsed data) ws st in
  outcome r = Normal tt /\
  no_error_reply (emitted r) = true /\
  Math_max (Int 0) (Math_min (Int 100) NaN) = NaN /\
  In (volume_command NaN) (commands (emitted r)).
Proof.
  intros Ha Hn r. pose proof Hn as [Hn1 Hn2].
  assert (Hm : mutating (getProp data "action") = true).
  { unfold mutating. unfold volume_action in Ha. now rewrite Ha. }
  assert (Hv : value_converts data) by (intros _; now apply non_numeric_convertible).
  pose proof (mutation_no_error_reply Hs data ws st Hm Hv) as Hno.
  destruct (mutation_handled Hs data ws st Hm Hv) as (pre & w1 & _ & _ & Eh & E).
  subst r. repeat split; auto; [now rewrite E|]. clear E. rewrite Eh.
  assert (Adjust : forall up : bool,
            getProp data "action" =
              JStr (if up then "increaseVolume" else "decreaseVolume") ->
            In (volume_command NaN) (commands (emitted (handleMessage data ws st)))).
  { intros up Ha'.
    destruct (getVolume_ok Hs (world st)) as (c & Hc & Tc).
    assert (Hadj : adjusted up c (getProp data "value") = Normal NaN).
    { unfold adjusted. destruct up.
      - destruct (Hn2 c) as (sum & -> & Hs2). cbn [and_then]. now rewrite Hs2.
      - unfold js_sub. cbn [ToNumber and_then]. rewrite Hn1. cbn.
        now destruct c. }
    rewrite (handle_adjust up c data ws st Ha' Hc), Hadj. cbn zeta.
    rewrite then_broadcast;
      rewrite (setVolume_run Hs (JNum NaN) NaN _ eq_refl); [|reflexivity].
    cbn [Math_min Math_max emitted]. rewrite !commands_app.
    apply in_or_app. right. apply in_or_app. left. cbn. now left. }
  unfold volume_action in Ha. rewrite !orb_true_iff in Ha.
  destruct Ha as [[Ha | Ha] | Ha]; apply strict_eq_JStr in Ha.
  - rewrite handle_setVolume by exact Ha.
    rewrite then_broadcast;
      rewrite (setVolume_run Hs _ NaN _ Hn1); [|reflexivity].
    cbn. now left.
  - exact (Adjust true Ha).
  - exact (Adjust false Ha).
Qed.

End Failures.

Section Replies.
Context {env : Env}.
Import volumeController.
#[local] Arguments broadcastState : simpl never.

Lemma send_open (ws : WebSocket) (msg : Reply) (st : State) :
  readyState ws = OPEN ->
  send ws msg st = mkResult (Normal tt) st [Sent (ws_id ws) msg].
Proof. unfold send. now intros ->. Qed.

(** [sendState] to an open client: the three queries, then the message. *)
Lemma sendState_run (Hs : supported platform) (ws : WebSocket) (st : State) :
  readyState ws = OPEN ->
  exists state,
    outcome (observe (world st)) = Normal state /\
    sendState ws st =
    mkResult (Normal tt) (set_world st (final (observe (world st))))
             (emitted (observe (world st)) ++ [Sent (ws_id ws) state]).
Proof.
  intros Ho.
  destruct (getVolume_ok Hs (world st)) as (v & Hv & _).
  destruct (getMuted_ok Hs (final (getVolume (world st)))) as (m & Hm & _).
  destruct (getOutputDevice_ok Hs (final (getMuted (final (getVolume (world st))))))
    as (d & Hd & _).
  exists (StateMsg v m d).
  unfold observe, sendState, try_catch, bind, await. cbn.
  rewrite Hv. cbn. rewrite Hm. cbn. rewrite Hd. cbn.
  rewrite send_open by assumption. cbn.
  now rewrite app_nil_r, <- !app_assoc.
Qed.

(** C7: a message that does not parse makes the listener log the error and
    send the error descriptor, carrying the parser's message, to the
    offending client and to nobody else; no command is run, the listener
    ends normally, and the server state, the connection included, is as
    before, so that a later valid message from that client is served: a
    [getState] is answered with the state. *)
Theorem malformed_message_error_reply (e : Error) (ws : WebSocket) (st : State) :
  readyState ws = OPEN ->
  let r := onMessage (Malformed e) ws st in
  outcome r = Normal tt /\
  deliveries (emitted r) = [(ws_id ws, ErrorMsg (message e))] /\
  commands (emitted r) = [] /\
  final r = st /\
  (supported platform ->
   exists state,
     outcome (observe (world st)) = Normal state /\
     deliveries (emitted (onMessage (Parsed (JObj [("action", JStr "getState")]))
                                    ws (final r)))
     = [(ws_id ws, state)]).
Proof.
  intros Ho r.
  assert (E : r = mkResult (Normal tt) st
                    [ConsoleError "Error handling message:" e;
                     Sent (ws_id ws) (ErrorMsg (message e))]).
  { subst r. unfold onMessage, try_catch, throw, bind, console_error, emit. cbn.
    now rewrite send_open. }
  rewrite E. cbn [outcome final emitted]. repeat split.
  intros Hs. destruct (sendState_run Hs ws st Ho) as (state & Hq & Es).
  exists state. split; [exact Hq|].
  rewrite (onMessage_Normal _ ws st tt);
    rewrite handle_getState by reflexivity; rewrite Es; [|reflexivity].
  cbn [emitted]. rewrite deliveries_app.
  destruct (observe_ok Hs (world st)) as (_ & _ & _ & _ & _ & _ & _ & _ & ->).
  reflexivity.
Qed.

(** C8: a parsed message that is an object, or any value other than
    [null], whose action is none of the eight recognized names is answered
    with the error descriptor [Unknown action], sent to the sender and to
    nobody else; no command is run, nothing is broadcast, and the state is
    left as it was. *)
Theorem unknown_action_error_reply (data : jsval) (ws : WebSocket) (st : State) :
  data <> JNull -> data <> JUndefined ->
  recognized (getProp data "action") = false ->
  readyState ws = OPEN ->
  let r := onMessage (Parsed data) ws st in
  outcome r = Normal tt /\
  emitted r = [Sent (ws_id ws) (ErrorMsg "Unknown action")] /\
  deliveries (emitted r) = [(ws_id ws, ErrorMsg "Unknown action")] /\
  commands (emitted r) = [] /\
  final r = st.
Proof.
  intros Hn Hu Hr Ho r.
  unfold recognized in Hr. rewrite !orb_false_iff in Hr.
  destruct Hr as [[[[[[[H1 H2] H3] H4] H5] H6] H7] H8].
  assert (E : handleMessage data ws st =
              mkResult (Normal tt) st [Sent (ws_id ws) (ErrorMsg "Unknown action")]).
  { unfold handleMessage.
    destruct data; try contradiction;
      rewrite H1, H2, H3, H4, H5, H6, H7, H8; now apply send_open. }
  subst r. rewrite (onMessage_Normal data ws st tt) by now rewrite E.
  rewrite E. cbn. auto.
Qed.

Lemma getMuted_Normal_supported (w : World) (m : bool) :
  outcome (getMuted w) = Normal m -> supported platform.
Proof.
  unfold getMuted, supported.
  destruct (platform =? "linux") eqn:E1; [apply String.eqb_eq in E1; auto|].
  destruct (platform =? "darwin") eqn:E2; [apply String.eqb_eq in E2; auto|].
  destruct (platform =? "win32") eqn:E3; [apply String.eqb_eq in E3; auto|].
  discriminate.
Qed.

Lemma broadcast_keeps_mute (mu : World -> bool) (Hf : faithful_mute mu)
    (Hs : supported platform) (st : State) :
  mu (world (final (broadcastState st))) = mu (world st).
Proof.
  destruct Hf as (Hg & _ & Hv & Hd).
  rewrite broadcastState_run. destruct (wss st); [|reflexivity]. cbn zeta.
  destruct (observe_ok Hs (world st)) as (v & m & d & Hq & _ & _ & Ef & _).
  rewrite Hq. cbn. rewrite Ef, Hd.
  destruct (Hg (final (getVolume (world st)))) as [_ ->]. apply Hv.
Qed.

Lemma toggle_once (mu : World -> bool) (Hf : faithful_mute mu)
    (data : jsval) (ws : WebSocket) (st : State) :
  getProp data "action" = JStr "toggleMute" ->
  outcome (onMessage (Parsed data) ws st) = Normal tt /\
  mu (world (final (onMessage (Parsed data) ws st))) = negb (mu (world st)).
Proof.
  intros Ha. pose proof Hf as (Hg & Hset & _).
  destruct (Hg (world st)) as [Hm Hk].
  pose proof (getMuted_Normal_supported _ _ Hm) as Hs.
  assert (Hmut : mutating (getProp data "action") = true) by now rewrite Ha.
  assert (Hv : value_converts data) by (apply no_value_converts; now rewrite Ha).
  destruct (mutation_handled Hs data ws st Hmut Hv) as (pre & w1 & _ & _ & Eh & E).
  split; [now rewrite E|]. rewrite Eh, handle_toggleMute by exact Ha.
  rewrite (bind_Normal _ _ _ (mu (world st))) by (rewrite await_run; exact Hm).
  rewrite await_run. cbn [final emitted].
  destruct (setMuted_ok Hs (negb (mu (world st))) (final (getMuted (world st))))
    as [Ho _].
  rewrite then_broadcast by exact Ho. cbn [final world set_world].
  rewrite (broadcast_keeps_mute mu Hf Hs). cbn [world set_world]. apply Hset.
Qed.

(** C6: with a backend that keeps the mute state it is given, and nothing
    else changing it, two [toggleMute] requests in a row both end normally;
    after the first the mute state is the negation of the initial one, and
    after the second it is the initial one again. *)
Theorem toggleMute_twice_restores (mu : World -> bool) (Hf : faithful_mute mu)
    (data : jsval) (ws : WebSocket) (st : State) :
  getProp data "action" = JStr "toggleMute" ->
  let r1 := onMessage (Parsed data) ws st in
  let r2 := onMessage (Parsed data) ws (final r1) in
  outcome r1 = Normal tt /\ outcome r2 = Normal tt /\
  mu (world (final r1)) = negb (mu (world st)) /\
  mu (world (final r2)) = mu (world st).
Proof.
  intros Ha r1 r2.
  destruct (toggle_once mu Hf data ws st Ha) as [O1 M1].
  destruct (toggle_once mu Hf data ws (final r1) Ha) as [O2 M2].
  subst r1 r2. repeat split; auto.
  rewrite M2, M1. apply negb_involutive.
Qed.

End Replies.

Section Unsupported.
Context {env : Env}.
Import volumeController.
#[local] Arguments broadcastState : simpl never.

(** X22: on a platform the controller has no case for, a mutating request
    runs no command and nothing is broadcast: the error thrown reaches the
    listener, which logs it and reports it to the requester alone, and the
    state is left as it was.  The error is the controller's [Unsupported
    platform], whatever the value of the request, with one exception: in a
    [setVolume] the value is converted before the platform is looked at,
    so when that conversion throws it is its TypeError that is
    reported. *)
Lemma unsupported_platform_reported (Hn : ~ supported platform)
    (data : jsval) (ws : WebSocket) (st : State) :
  mutating (getProp data "action") = true ->
  readyState ws = OPEN ->
  let reported err :=
    onMessage (Parsed data) ws st =
    mkResult (Normal tt) st
      [ConsoleError "Error handling message:" err;
       Sent (ws_id ws) (ErrorMsg (message err))] in
  ((getProp data "action" = JStr "setVolume" -> convertible (getProp data "value")) ->
   reported (mkError ("Unsupported platform: " ++ platform))) /\
  (forall e, getProp data "action" = JStr "setVolume" ->
             ToNumber (getProp data "value") = Throw e ->
             reported e).
Proof.
  intros Hm Ho reported.
  destruct (unsupported_platform Hn) as (H1 & H2 & H3).
  assert (R : forall err, handleMessage data ws st = mkResult (Throw err) st [] ->
                          reported err).
  { intros err E. unfold reported, onMessage.
    rewrite (try_catch_Throw _ _ _ err) by now rewrite E.
    rewrite E. unfold bind, console_error, emit. cbn. now rewrite send_open. }
  split.
  - intros Hv. apply R.
    unfold mutating in Hm. rewrite !orb_true_iff in Hm.
    destruct Hm as [[[[[Ha | Ha] | Ha] | Ha] | Ha] | Ha]; apply strict_eq_JStr in Ha;
      [ rewrite handle_setVolume by exact Ha; destruct (Hv Ha) as [n Hc]
      | rewrite handle_increaseVolume by exact Ha
      | rewrite handle_decreaseVolume by exact Ha
      | rewrite handle_mute by exact Ha
      | rewrite handle_unmute by exact Ha
      | rewrite handle_toggleMute by exact Ha ];
      unfold bind, await, setVolume, getVolume, setMuted, getMuted, run, bind;
      rewrite ?Hc, H1, H2, H3; destruct st; reflexivity.
  - intros e Ha He. apply R. rewrite handle_setVolume by exact Ha.
    unfold bind. rewrite await_run, (setVolume_throws _ e _ He).
    destruct st; reflexivity.
Qed.

End Unsupported.

(** ** Queries that fail, and the poll loop *)

Section Queries.
Context {env : Env}.
Import volumeController.
#[local] Arguments broadcastState : simpl never.
#[local] Arguments getVolume : simpl never.
#[local] Arguments getMuted : simpl never.

(** On a supported platform a query whose subprocess fails answers with
    its fixed default, and the caller sees no exception. *)
Lemma query_failure_defaults (Hs : supported platform) (w : World) :
  (forall cmd e, In (Exec cmd (ExecErr e)) (emitted (getVolume w)) ->
                 outcome (getVolume w) = Normal (Int 0)) /\
  (forall cmd e, In (Exec cmd (ExecErr e)) (emitted (getMuted w)) ->
                 outcome (getMuted w) = Normal false) /\
  (forall cmd e, In (Exec cmd (ExecErr e)) (emitted (getOutputDevice w)) ->
                 outcome (getOutputDevice w) = Normal default_device).
Proof.
  repeat split; intros cmd e; pick Hs; run_wrapper w; intros H;
    try reflexivity; destruct H as [H | []]; discriminate H.
Qed.

(** On Linux, an output of [amixer] without a percentage gives 0. *)
Lemma getVolume_linux_unparseable (w w' : World) (out : string) :
  platform = "linux" ->
  exec "amixer get Master" w = (ExecOk out, w') ->
  match_percent out = None ->
  outcome (getVolume w) = Normal (Int 0).
Proof.
  intros Hp He Hm. unfold getVolume. rewrite Hp. cbn [String.eqb Ascii.eqb Bool.eqb].
  unfold getVolumeLinux, try_catch, bind, execAsync, ret. rewrite He. cbn.
  now rewrite Hm.
Qed.

(** One tick: the two queries, then either nothing more, or the snapshot
    is set to what was observed and one broadcast follows. *)
Lemma pollTick_run (Hs : supported platform) (st : State) :
  let g1 := getVolume (world st) in
  let g2 := getMuted (final g1) in
  exists v m,
    outcome g1 = Normal v /\ outcome g2 = Normal m /\
    let st1 := set_world st (final g2) in
    let st2 := set_last st1 (JNum v) (JBool m) in
    pollTick st =
    if strict_ne (JNum v) (lastVolume st) || strict_ne (JBool m) (lastMute st)
    then mkResult (Normal tt) (final (broadcastState st2))
                  (emitted g1 ++ emitted g2 ++ emitted (broadcastState st2))
    else mkResult (Normal tt) st1 (emitted g1 ++ emitted g2).
Proof.
  intros g1 g2. subst g1 g2.
  destruct (getVolume_ok Hs (world st)) as (v & Hv & _).
  destruct (getMuted_ok Hs (final (getVolume (world st)))) as (m & Hm & _).
  exists v, m. repeat split; auto. cbn zeta.
  unfold pollTick, try_catch, bind, await, get, modify. cbn.
  rewrite Hv. cbn. rewrite Hm. cbn.
  destruct (strict_ne (JNum v) (lastVolume st) || strict_ne (JBool m) (lastMute st)); cbn.
  - rewrite broadcastState_Normal. reflexivity.
  - now rewrite app_nil_r.
Qed.

(** A tick that observes the integer volume and the mute state of the
    snapshot sends nothing and leaves the snapshot as it is. *)
Lemma pollTick_unchanged (Hs : supported platform) (st : State) (v : Z) (m : bool) :
  outcome (getVolume (world st)) = Normal (Int v) ->
  outcome (getMuted (final (getVolume (world st)))) = Normal m ->
  lastVolume st = JNum (Int v) -> lastMute st = JBool m ->
  deliveries (emitted (pollTick st)) = [] /\
  lastVolume (final (pollTick st)) = JNum (Int v) /\
  lastMute (final (pollTick st)) = JBool m.
Proof.
  intros Hv Hm Lv Lm.
  destruct (pollTick_run Hs st) as (v' & m' & Hv' & Hm' & E).
  rewrite Hv in Hv'. rewrite Hm in Hm'. injection Hv' as <-. injection Hm' as <-.
  cbn zeta in E. rewrite E, Lv, Lm. unfold strict_ne. cbn.
  rewrite Z.eqb_refl, Bool.eqb_reflx. cbn.
  destruct (getVolume_ok Hs (world st)) as (_ & _ & _ & D1).
  destruct (getMuted_ok Hs (final (getVolume (world st)))) as (_ & _ & _ & D2).
  now rewrite deliveries_app, D1, D2.
Qed.

(** X24: a tick that observes a volume or a mute state other than the
    snapshot's sets the snapshot to what it observed before it broadcasts,
    once; what it sends is what that one broadcast sends. *)
Lemma pollTick_changed (Hs : supported platform) (st : State) (v : num) (m : bool) :
  outcome (getVolume (world st)) = Normal v ->
  outcome (getMuted (final (getVolume (world st)))) = Normal m ->
  strict_ne (JNum v) (lastVolume st) || strict_ne (JBool m) (lastMute st) = true ->
  let st2 := set_last (set_world st (final (getMuted (final (getVolume (world st))))))
                      (JNum v) (JBool m) in
  lastVolume st2 = JNum v /\ lastMute st2 = JBool m /\
  final (pollTick st) = final (broadcastState st2) /\
  deliveries (emitted (pollTick st)) = deliveries (emitted (broadcastState st2)) /\
  lastVolume (final (pollTick st)) = JNum v /\
  lastMute (final (pollTick st)) = JBool m.
Proof.
  intros Hv Hm Hc st2.
  destruct (pollTick_run Hs st) as (v' & m' & Hv' & Hm' & E).
  rewrite Hv in Hv'. rewrite Hm in Hm'. injection Hv' as <-. injection Hm' as <-.
  cbn zeta in E. rewrite E, Hc. subst st2. cbn [final emitted].
  destruct (getVolume_ok Hs (world st)) as (_ & _ & _ & D1).
  destruct (getMuted_ok Hs (final (getVolume (world st)))) as (_ & _ & _ & D2).
  rewrite !deliveries_app, D1, D2. cbn [app].
  rewrite broadcastState_run. cbn [wss set_last set_world].
  destruct (wss st); cbn zeta; [|cbn; repeat split; reflexivity].
  destruct (outcome (observe _)); cbn; repeat split; reflexivity.
Qed.

End Queries.

Lemma inbox_sent_at_most_once (state : Reply) (l : list WebSocket) (id : nat) :
  NoDup (map ws_id l) ->
  (List.length (inbox id (map (fun c => Sent (ws_id c) state) l)) <= 1)%nat.
Proof.
  induction l as [|x t IH]; intros Hn; [cbn; lia|].
  cbn in Hn. inversion Hn as [|? ? Hx Ht]; subst.
  destruct (Nat.eq_dec (ws_id x) id) as [E|E].
  - rewrite <- E, (inbox_sent_once state (x :: t) x); [cbn; lia | exact Hn | now left].
  - specialize (IH Ht). unfold inbox in *. cbn.
    destruct (Nat.eqb_spec (ws_id x) id); [contradiction | exact IH].
Qed.

Lemma NoDup_ids_reached (l : list WebSocket) :
  NoDup (map ws_id l) -> NoDup (map ws_id (reached l)).
Proof. apply NoDup_ids_filter. Qed.

Section AtMostOnce.
Context {env : Env}.
#[local] Arguments broadcastState : simpl never.

(** A broadcast puts at most one message into any inbox. *)
Lemma broadcast_at_most_once (Hs : supported platform)
    (st : State) (clients : list WebSocket) (id : nat) :
  wss st = Some clients -> NoDup (map ws_id clients) ->
  (List.length (inbox id (emitted (broadcastState st))) <= 1)%nat.
Proof.
  intros Hw Hn. rewrite broadcastState_run, Hw. cbn zeta.
  destruct (observe_ok Hs (world st)) as (v & m & d & Hq & _ & _ & _ & _ & Dq).
  rewrite Hq. cbn [emitted].
  rewrite !inbox_app, (inbox_silent _ _ Dq). cbn [app].
  apply inbox_sent_at_most_once. now apply NoDup_ids_reached.
Qed.

(** X23: on a supported platform a tick of the poll loop puts at most one
    message into the inbox of any client, the clients being distinct
    connections. *)
Lemma pollTick_at_most_once (Hs : supported platform)
    (st : State) (clients : list WebSocket) (id : nat) :
  wss st = Some clients -> NoDup (map ws_id clients) ->
  (List.length (inbox id (emitted (pollTick st))) <= 1)%nat.
Proof.
  intros Hw Hn.
  destruct (pollTick_run Hs st) as (v & m & Hv & Hm & E). cbn zeta in E. rewrite E.
  destruct (getVolume_ok Hs (world st)) as (_ & _ & _ & D1).
  destruct (getMuted_ok Hs (final (volumeController.getVolume (world st))))
    as (_ & _ & _ & D2).
  destruct (strict_ne (JNum v) (lastVolume st) || strict_ne (JBool m) (lastMute st));
    cbn [emitted]; rewrite !inbox_app, (inbox_silent _ _ D1), (inbox_silent _ _ D2);
    cbn [app List.length]; [|lia].
  now apply (broadcast_at_most_once Hs _ clients).
Qed.

End AtMostOnce.

(** ** The properties at concrete inputs *)

Section Concrete.
Import Hosts Scenarios.

Example parseInt_42 : parseInt ("  42" ++ nl) = Int 42.
Proof. reflexivity. Qed.

Example parseInt_hex : parseInt "-0x1f" = Int (-31).
Proof. reflexivity. Qed.

Example parseInt_words : parseInt "missing value" = NaN.
Proof. reflexivity. Qed.

Example match_percent_amixer :
  match_percent "  Mono: Playback 52 [81%] [-8.25dB] [on]" = Some "81".
Proof. reflexivity. Qed.

Example match_control_amixer :
  match_control ("Simple mixer control 'Master',0" ++ nl) = Some "Master".
Proof. reflexivity. Qed.

Example trim_true : trim ("  true " ++ nl) = "true".
Proof. reflexivity. Qed.

(** A byte order mark ahead and a no-break space behind are stripped as
    well; a character that merely shares its first byte with one of them
    is kept. *)
Example trim_wide :
  let bom := String (ascii_of_nat 239) (String (ascii_of_nat 187)
               (String (ascii_of_nat 191) EmptyString)) in
  let nbsp := String (ascii_of_nat 194) (String (ascii_of_nat 160) EmptyString) in
  let e_acute := String (ascii_of_nat 195) (String (ascii_of_nat 169) EmptyString) in
  let micro := String (ascii_of_nat 194) (String (ascii_of_nat 181) EmptyString) in
  trim (bom ++ "true" ++ nbsp ++ nl) = "true" /\
  trim (nbsp ++ micro ++ "caf" ++ e_acute ++ " " ++ nbsp) = micro ++ "caf" ++ e_acute /\
  parseInt (nbsp ++ "42") = Int 42.
Proof. repeat split. Qed.

Example ToString_array :
  ToString (JArr [JNum (Int (-5)); JNull; JStr "a"]) = Normal "-5,,a".
Proof. reflexivity. Qed.

(** The object [{"toString": 0}] has nothing to convert it; the object
    [{"valueOf": 0}] still inherits [toString]; an array is as convertible
    as its elements. *)
Example ToNumber_own_toString :
  @ToNumber linux_mixer (JObj [("toString", JNum (Int 0))])
    = Throw TypeError_not_primitive /\
  @ToNumber linux_mixer (JObj [("valueOf", JNum (Int 0))]) = Normal NaN /\
  @ToNumber linux_mixer (JArr [JArr [JStr "7"]]) = Normal (Int 7) /\
  @ToNumber linux_mixer (JArr [JNum (Int 1); JObj [("toString", JNull)]])
    = Throw TypeError_not_primitive.
Proof. repeat split. Qed.

Example volume_command_NaN_linux :
  @volume_command linux_mixer NaN = "amixer set Master NaN%".
Proof. reflexivity. Qed.

(** C1, the claim as stated fails: on a Linux machine without [amixer] the
    command of a [setVolume 50] request fails, yet the requester gets no
    error descriptor, and the state broadcast is not skipped: both clients
    receive a state message, made of the fallback values. *)
Lemma failed_setVolume_not_reported_and_broadcast :
  let r := @onMessage linux_without_amixer
             (Parsed (request "setVolume" (JNum (Int 50)))) (client 1)
             (@serving linux_without_amixer tt [client 1; client 2]) in
  hd_error (emitted r) =
    Some (Exec "amixer set Master 50%"
               (ExecErr (mkError "Command failed: amixer set Master 50%"))) /\
  no_error_reply (emitted r) = true /\
  inbox 1 (emitted r) = [StateMsg (Int 0) false "Master"] /\
  inbox 2 (emitted r) = [StateMsg (Int 0) false "Master"].
Proof. vm_compute. repeat split. Qed.

(** The same request on the same machine, through the general statement. *)
Lemma backend_failure_logged_not_reported_witness :
  supported (@platform linux_without_amixer) /\
  let st := @serving linux_without_amixer tt [client 1; client 2] in
  let r := onMessage (Parsed (request "setVolume" (JNum (Int 50)))) (client 1) st in
  outcome r = Normal tt /\
  well_logged (emitted r) = true /\
  no_error_reply (emitted r) = true /\
  exists pre w1,
    commands pre <> [] /\
    emitted r = (pre ++ emitted (broadcastState (set_world st w1)))%list /\
    final r = final (broadcastState (set_world st w1)).
Proof.
  split; [left; reflexivity|].
  apply (@backend_failure_logged_not_reported linux_without_amixer);
    [left; reflexivity | reflexivity | intros _; now exists (Int 50)].
Defined.

(** A broadcast to two open clients and one closing client on the Linux
    machine. *)
Lemma broadcast_delivery_witness :
  let clients := [client 1; closing 2; client 3] in
  let st := @serving linux_mixer (mkMixer 40 true) clients in
  let r := broadcastState st in
  exists state,
    outcome (observe (world st)) = Normal state /\
    outcome r = Normal tt /\
    deliveries (emitted r) =
      map (fun c => (ws_id c, state)) (filter is_open clients) /\
    (forall c, In c clients -> readyState c = OPEN ->
               inbox (ws_id c) (emitted r) = [state]) /\
    (forall c, In c clients -> readyState c <> OPEN ->
               inbox (ws_id c) (emitted r) = []) /\
    (forall c st', readyState c = OPEN ->
                   outcome (@send linux_mixer c state st') = Normal tt).
Proof.
  apply (@broadcast_delivery linux_mixer); [left; reflexivity | reflexivity |].
  repeat constructor; simpl; intuition discriminate.
Defined.

(** The same broadcast, run: the closing client in the middle gets
    nothing and the open client after it is served. *)
Example broadcast_skips_closing_client :
  deliveries (emitted (@broadcastState linux_mixer
                         (@serving linux_mixer (mkMixer 40 true)
                                   [client 1; closing 2; client 3])))
  = [(1%nat, StateMsg (Int 40) true "Master");
     (3%nat, StateMsg (Int 40) true "Master")].
Proof. vm_compute. reflexivity. Qed.

(** C3 at the failing input: on a macOS machine whose output device has no
    software volume two ticks in a row observe the same state (volume NaN,
    not muted), the snapshot after the first tick holds exactly that, and
    still each of the two ticks broadcasts it. *)
Lemma poll_rebroadcasts_unchanged_NaN :
  let st := @serving mac_hdmi tt [client 1] in
  let r1 := onTimer st in
  let r2 := onTimer (final r1) in
  lastVolume (final r1) = JNum NaN /\ lastMute (final r1) = JBool false /\
  outcome (volumeController.getVolume (world (final r1))) = Normal NaN /\
  outcome (volumeController.getMuted (world (final r1))) = Normal false /\
  deliveries (emitted r1) = [(1%nat, StateMsg NaN false "DELL U2720Q")] /\
  deliveries (emitted r2) = [(1%nat, StateMsg NaN false "DELL U2720Q")].
Proof. vm_compute. repeat split. Qed.

(** A request for 150 on the Linux machine sets the mixer to 100. *)
Lemma setVolume_applies_clamp_witness :
  let st := @serving linux_mixer (mkMixer 40 false) [client 1] in
  let r := onMessage (Parsed (request "setVolume" (JNum (Int 150)))) (client 1) st in
  @volume_command linux_mixer (Int (clamp 150 0 100)) = "amixer set Master 100%" /\
  hd_error (emitted r) =
    Some (Exec "amixer set Master 100%"
               (ExecOk (amixer_report (mkMixer 100 false)))).
Proof.
  split; [reflexivity|].
  destruct (@setVolume_applies_clamp linux_mixer (or_introl eq_refl) 150
              (request "setVolume" (JNum (Int 150))) (client 1)
              (@serving linux_mixer (mkMixer 40 false) [client 1])
              eq_refl eq_refl) as (_ & _ & E).
  cbv zeta. rewrite E. reflexivity.
Defined.

(** An increase by 10 from a mixer at 95 sets it to 100. *)
Lemma adjustVolume_applies_clamp_witness :
  let st := @serving linux_mixer (mkMixer 95 false) [client 1] in
  let r := onMessage (Parsed (request "increaseVolume" (JNum (Int 10)))) (client 1) st in
  outcome (volumeController.getVolume (world st)) = Normal (Int 95) /\
  outcome r = Normal tt /\
  In "amixer set Master 100%" (commands (emitted r)).
Proof.
  split; [reflexivity|].
  destruct (@adjustVolume_applies_clamp linux_mixer (or_introl eq_refl) true 95 10
              (request "increaseVolume" (JNum (Int 10))) (client 1)
              (@serving linux_mixer (mkMixer 95 false) [client 1])
              eq_refl eq_refl eq_refl) as ((O & _ & E) & _).
  cbv zeta. split; [exact O|]. rewrite E, commands_app.
  apply in_or_app. right. left. reflexivity.
Defined.

(** The macOS machine keeps the mute state it is given. *)
Lemma mac_faithful_mute : @faithful_mute mac mac_muted.
Proof.
  repeat split; intros; try destruct w as [v []]; try destruct b; reflexivity.
Defined.

(** Two toggles on the macOS machine, muted at the start. *)
Lemma toggleMute_twice_restores_witness :
  let st := @serving mac (mkMac 40 true) [client 1] in
  let r1 := onMessage (Parsed (bare "toggleMute")) (client 1) st in
  let r2 := onMessage (Parsed (bare "toggleMute")) (client 1) (final r1) in
  @faithful_mute mac mac_muted /\
  outcome r1 = Normal tt /\ outcome r2 = Normal tt /\
  mac_muted (world (final r1)) = negb (mac_muted (world st)) /\
  mac_muted (world (final r2)) = mac_muted (world st).
Proof.
  split; [exact mac_faithful_mute|].
  apply (@toggleMute_twice_restores mac mac_muted mac_faithful_mute). reflexivity.
Defined.

(** A message starting with a stray letter, as the parser reports it. *)
Lemma malformed_message_error_reply_witness :
  let e := mkError "Unexpected token h in JSON at position 0" in
  let st := @serving linux_mixer (mkMixer 40 false) [client 1; client 2] in
  let r := onMessage (Malformed e) (client 1) st in
  outcome r = Normal tt /\
  deliveries (emitted r) = [(ws_id (client 1), ErrorMsg (message e))] /\
  commands (emitted r) = [] /\
  final r = st /\
  (supported (@platform linux_mixer) ->
   exists state,
     outcome (observe (world st)) = Normal state /\
     deliveries (emitted (onMessage (Parsed (JObj [("action", JStr "getState")]))
                                    (client 1) (final r)))
     = [(ws_id (client 1), state)]).
Proof.
  apply (@malformed_message_error_reply linux_mixer); reflexivity.
Defined.

(** The action [bogus] on the Linux machine. *)
Lemma unknown_action_error_reply_witness :
  let st := @serving linux_mixer (mkMixer 40 false) [client 1; client 2] in
  let r := onMessage (Parsed (bare "bogus")) (client 1) st in
  outcome r = Normal tt /\
  emitted r = [Sent 1 (ErrorMsg "Unknown action")] /\
  deliveries (emitted r) = [(1%nat, ErrorMsg "Unknown action")] /\
  commands (emitted r) = [] /\
  final r = st.
Proof.
  apply (@unknown_action_error_reply linux_mixer);
    (discriminate || reflexivity).
Defined.

(** C9 at the failing input: [osascript] runs and answers
    [missing value]; [getVolume] returns NaN, not the default 0. *)
Lemma getVolume_darwin_unparseable_is_NaN :
  outcome (@volumeController.getVolume mac_hdmi tt) = Normal NaN /\
  emitted (@volumeController.getVolume mac_hdmi tt) =
    [Exec ("osascript -e " ++ dq ++ "output volume of (get volume settings)" ++ dq)
          (ExecOk ("missing value" ++ nl))].
Proof. vm_compute. repeat split. Qed.

(** C10, the claim as stated fails: [null] is no number, yet a
    [setVolume] request carrying it produces no NaN: [null] converts to 0,
    and the mixer is set to 0. *)
Lemma null_value_sets_volume_zero :
  let st := @serving linux_mixer (mkMixer 40 false) [client 1] in
  let r := onMessage (Parsed (request "setVolume" JNull)) (client 1) st in
  @ToNumber linux_mixer JNull = Normal (Int 0) /\
  commands (emitted r) =
    ["amixer set Master 0%"; "amixer get Master"; "amixer get Master"; "amixer"] /\
  world (final r) = mkMixer 0 false.
Proof. vm_compute. repeat split. Qed.

(** A [setVolume] request without a value on the Linux machine. *)
Lemma missing_value_reaches_command_witness :
  let st := @serving linux_mixer (mkMixer 40 false) [client 1] in
  let r := onMessage (Parsed (bare "setVolume")) (client 1) st in
  outcome r = Normal tt /\
  no_error_reply (emitted r) = true /\
  Math_max (Int 0) (Math_min (Int 100) NaN) = NaN /\
  In "amixer set Master NaN%" (commands (emitted r)).
Proof.
  apply (@missing_value_reaches_command linux_mixer);
    [left; reflexivity | reflexivity | exact (@undefined_non_numeric linux_mixer)].
Defined.

Example increase_from_95 :
  commands (emitted (@onMessage linux_mixer
                       (Parsed (request "increaseVolume" (JNum (Int 10)))) (client 1)
                       (@serving linux_mixer (mkMixer 95 false) [client 1])))
  = ["amixer get Master"; "amixer set Master 100%";
     "amixer get Master"; "amixer get Master"; "amixer"].
Proof. vm_compute. reflexivity. Qed.

Example decrease_from_5 :
  commands (emitted (@onMessage linux_mixer
                       (Parsed (request "decreaseVolume" (JNum (Int 10)))) (client 1)
                       (@serving linux_mixer (mkMixer 5 false) [client 1])))
  = ["amixer get Master"; "amixer set Master 0%";
     "amixer get Master"; "amixer get Master"; "amixer"].
Proof. vm_compute. reflexivity. Qed.

Example setVolume_on_freebsd :
  deliveries (emitted (@onMessage freebsd
                         (Parsed (request "setVolume" (JNum (Int 50)))) (client 1)
                         (@serving freebsd tt [client 1; client 2])))
  = [(1%nat, ErrorMsg "Unsupported platform: freebsd")].
Proof. vm_compute. reflexivity. Qed.

Example numeric_string_is_concatenated :
  commands (emitted (@onMessage linux_mixer
                       (Parsed (request "increaseVolume" (JStr "5"))) (client 1)
                       (@serving linux_mixer (mkMixer 40 false) [client 1])))
  = ["amixer get Master"; "amixer set Master 100%";
     "amixer get Master"; "amixer get Master"; "amixer"].
Proof. vm_compute. reflexivity. Qed.

Example polling_state_machine :
  pollingTimer (final (@startPolling linux_mixer
                         (@initial linux_mixer (mkMixer 40 false) default_settings))) = Some 500 /\
  pollingTimer (final (@stopPolling linux_mixer
                         (@serving linux_mixer (mkMixer 40 false) []))) = None /\
  emitted (@onTimer linux_mixer (@initial linux_mixer (mkMixer 40 false) default_settings)) = [].
Proof. vm_compute. repeat split. Qed.

Example first_tick_broadcasts_then_quiet :
  let r1 := @onTimer linux_mixer (@serving linux_mixer (mkMixer 40 false) [client 1]) in
  let r2 := onTimer (final r1) in
  deliveries (emitted r1) = [(1%nat, StateMsg (Int 40) false "Master")] /\
  deliveries (emitted r2) = [].
Proof. vm_compute. repeat split. Qed.

End Concrete.

(** * Further properties of the code *)

(** ** Listeners and exceptions *)

Section Settling.
Context {env : Env}.
Import volumeController.
#[local] Arguments broadcastState : simpl never.

Lemma try_catch_logged {S} (body : M S unit) (label : string) (s : S) :
  outcome (try_catch body (fun error => console_error label error) s) = Normal tt.
Proof.
  unfold try_catch. destruct (outcome (body s)) as [[]|e] eqn:E; [exact E | reflexivity].
Qed.

(** X1: whatever the platform, the subprocesses and the sockets do, the
    listeners other than the message listener never raise: [sendState],
    [broadcastState], the interval callback and the connection listener all
    end normally. *)
Theorem listeners_never_raise (ws : WebSocket) (st : State) :
  outcome (sendState ws st) = Normal tt /\
  outcome (broadcastState st) = Normal tt /\
  outcome (pollTick st) = Normal tt /\
  outcome (onTimer st) = Normal tt /\
  outcome (onConnection ws st) = Normal tt.
Proof.
  assert (Hs : forall st', outcome (sendState ws st') = Normal tt)
    by (intros; apply try_catch_logged).
  assert (Hp : forall st', outcome (pollTick st') = Normal tt)
    by (intros; apply try_catch_logged).
  split; [apply Hs|]. split; [apply broadcastState_Normal|].
  split; [apply Hp|]. split.
  - unfold onTimer, bind, get. cbn.
    destruct (pollingTimer st); cbn; try rewrite Hp; reflexivity.
  - unfold onConnection, bind, modify, console_log, emit. cbn. now rewrite Hs.
Qed.

(** X2: the message listener ends normally on every message, parsed or
    not, whatever its value and on every platform, for a socket that is
    past connecting, as every socket handed to a listener is: what the
    handler throws is caught, and the [send] of the error reply does not
    throw. *)
Theorem listener_resolves (message : Inbound) (ws : WebSocket) (st : State) :
  readyState ws <> CONNECTING ->
  outcome (onMessage message ws st) = Normal tt.
Proof.
  intros He. unfold onMessage.
  match goal with
  | |- outcome (try_catch ?b _ _) = _ => destruct (outcome (b st)) as [[]|e] eqn:E
  end.
  - now rewrite (try_catch_Normal _ _ _ tt E).
  - rewrite (try_catch_Throw _ _ _ e E). cbn [outcome].
    unfold bind, console_error, emit, send. cbn.
    destruct (readyState ws); [contradiction | reflexivity ..].
Qed.

End Settling.

(** ** What message handling leaves alone *)

Section Frame.
Context {env : Env}.
Import volumeController.

Lemma preserves_bind {A B} (m : M State A) (k : A -> M State B) :
  preserves m -> (forall a, preserves (k a)) -> preserves (bind m k).
Proof.
  intros Hm Hk st. unfold bind. destruct (outcome (m st)) eqn:E; cbn.
  - now rewrite Hk, Hm.
  - apply Hm.
Qed.

Lemma preserves_try_catch {A} (body : M State A) (handler : Error -> M State A) :
  preserves body -> (forall e, preserves (handler e)) ->
  preserves (try_catch body handler).
Proof.
  intros Hb Hh st. unfold try_catch. destruct (outcome (body st)) eqn:E; cbn.
  - apply Hb.
  - now rewrite Hh, Hb.
Qed.

Lemma preserves_snapshot {A} (m : M State A) (st : State) :
  preserves m ->
  lastVolume (final (m st)) = lastVolume st /\ lastMute (final (m st)) = lastMute st.
Proof.
  intros H. specialize (H st). unfold server_part in H.
  generalize dependent (final (m st)). intros st' H.
  injection H as _ _ _ H1 H2. auto.
Qed.

Lemma preserves_await {A} (m : M World A) : preserves (await m).
Proof. intros st. reflexivity. Qed.

Lemma preserves_send (ws : WebSocket) (msg : Reply) : preserves (send ws msg).
Proof. intros st. unfold send. destruct (readyState ws); reflexivity. Qed.

Lemma preserves_run {A} (c : Completion A) : preserves (run c).
Proof. intros st. reflexivity. Qed.

Lemma preserves_console_error (label : string) (e : Error) :
  preserves (console_error label e).
Proof. intros st. reflexivity. Qed.

Lemma preserves_ret {A} (a : A) : preserves (ret a).
Proof. intros st. reflexivity. Qed.

Lemma preserves_throw {A} (e : Error) : preserves (@throw State A e).
Proof. intros st. reflexivity. Qed.

Lemma preserves_get : preserves get.
Proof. intros st. reflexivity. Qed.

Lemma preserves_fanout (state : Reply) (clients : list WebSocket) :
  preserves (fanout state clients).
Proof. intros st. now rewrite fanout_run. Qed.

(** Breaks a computation into its steps. *)
Ltac frame :=
  repeat first
    [ apply preserves_bind; [|intros ?]
    | apply preserves_try_catch; [|intros ?]
    | apply preserves_await
    | apply preserves_send
    | apply preserves_console_error
    | apply preserves_ret
    | apply preserves_throw
    | apply preserves_run
    | apply preserves_get
    | apply preserves_fanout ].

Lemma preserves_sendState (ws : WebSocket) : preserves (sendState ws).
Proof. unfold sendState. frame. Qed.

Lemma preserves_broadcastState : preserves broadcastState.
Proof.
  unfold broadcastState. apply preserves_bind; [apply preserves_get|].
  intros st. destruct (wss st); frame.
Qed.

Lemma preserves_handleMessage (data : jsval) (ws : WebSocket) :
  preserves (handleMessage data ws).
Proof.
  unfold handleMessage.
  destruct data; try apply preserves_throw; cbv zeta;
    repeat match goal with
           | |- preserves (if ?c then _ else _) => destruct c
           end;
    repeat first
      [ apply preserves_sendState
      | apply preserves_broadcastState
      | apply preserves_send
      | apply preserves_await
      | apply preserves_run
      | apply preserves_bind; [|intros ?] ].
Qed.

Lemma preserves_onMessage (message : Inbound) (ws : WebSocket) :
  preserves (onMessage message ws).
Proof.
  unfold onMessage. apply preserves_try_catch.
  - destruct message; [apply preserves_throw | apply preserves_handleMessage].
  - intros e. frame.
Qed.

(** X4: handling a message changes nothing but the machine: the settings,
    the client set, the timer and the poll snapshot are after any message,
    on any platform, what they were before.  In particular a change made
    through a request is not recorded in the snapshot the poll loop
    compares with. *)
Theorem message_handling_frame (message : Inbound) (ws : WebSocket) (st : State) :
  let st' := final (onMessage message ws st) in
  store st' = store st /\ wss st' = wss st /\ pollingTimer st' = pollingTimer st /\
  lastVolume st' = lastVolume st /\ lastMute st' = lastMute st.
Proof.
  pose proof (preserves_onMessage message ws st) as H.
  unfold server_part in H. injection H as H1 H2 H3 H4 H5.
  cbn zeta. auto.
Qed.

End Frame.

(** ** Reading the state *)

Section Reading.
Context {env : Env}.
Import volumeController.
#[local] Arguments broadcastState : simpl never.

Lemma handle_isMuted (data : jsval) (ws : WebSocket) (st : State) :
  getProp data "action" = JStr "isMuted" ->
  handleMessage data ws st = sendState ws st.
Proof. intros Ha. switch_on Ha. reflexivity. Qed.

(** X5: on a supported platform a [getState] request, and an [isMuted]
    request just the same, runs the three queries and answers the requester
    alone with the whole state they returned; nothing is set and nothing is
    broadcast.  The requester's connection is open. *)
Theorem state_request_answers_requester (Hs : supported platform)
    (data : jsval) (ws : WebSocket) (st : State) :
  reading (getProp data "action") = true ->
  readyState ws = OPEN ->
  exists state,
    outcome (observe (world st)) = Normal state /\
    onMessage (Parsed data) ws st =
      mkResult (Normal tt) (set_world st (final (observe (world st))))
               (emitted (observe (world st)) ++ [Sent (ws_id ws) state]) /\
    deliveries (emitted (onMessage (Parsed data) ws st)) = [(ws_id ws, state)].
Proof.
  intros Hr Ho.
  destruct (sendState_run Hs ws st Ho) as (state & Hq & Es).
  assert (Eh : handleMessage data ws st = sendState ws st).
  { unfold reading in Hr. apply orb_true_iff in Hr as [Ha | Ha];
      apply strict_eq_JStr in Ha;
      [now apply handle_getState | now apply handle_isMuted]. }
  exists state. split; [exact Hq|].
  rewrite (onMessage_Normal data ws st tt) by now rewrite Eh, Es.
  rewrite Eh, Es. split; [reflexivity|]. cbn [emitted].
  rewrite deliveries_app.
  destruct (observe_ok Hs (world st)) as (_ & _ & _ & _ & _ & _ & _ & _ & ->).
  reflexivity.
Qed.

(** X6: on a supported platform a client that connects is sent the state
    at once, queried at that moment, and it alone: exactly one message,
    with no tick of the poll loop involved. *)
Theorem new_connection_gets_state (Hs : supported platform)
    (ws : WebSocket) (st : State) :
  readyState ws = OPEN ->
  exists state,
    outcome (observe (world st)) = Normal state /\
    deliveries (emitted (onConnection ws st)) = [(ws_id ws, state)] /\
    lastVolume (final (onConnection ws st)) = lastVolume st /\
    lastMute (final (onConnection ws st)) = lastMute st.
Proof.
  intros Ho.
  set (st1 := set_wss st (match wss st with
                          | Some clients => Some (clients ++ [ws])%list
                          | None => None
                          end)).
  destruct (sendState_run Hs ws st1 Ho) as (state & Hq & Es).
  exists state. split; [exact Hq|].
  unfold onConnection, bind, modify, console_log, emit. cbn. fold st1.
  rewrite Es. cbn. rewrite deliveries_app.
  destruct (observe_ok Hs (world st)) as (_ & _ & _ & _ & _ & _ & _ & _ & D).
  change (world st1) with (world st). rewrite D. auto.
Qed.

(** X7: on a platform the controller has no case for, nothing is ever
    sent in answer to a read: a [getState] request, a new connection and a
    tick of the poll loop run no command, send no message, not even an
    error descriptor, and only log the error; the snapshot stays as it
    is. *)
Theorem unsupported_platform_reads_are_silent (Hn : ~ supported platform)
    (ws : WebSocket) (st : State) :
  let err := mkError ("Unsupported platform: " ++ platform) in
  onMessage (Parsed (JObj [("action", JStr "getState")])) ws st =
    mkResult (Normal tt) st [ConsoleError "Error getting state:" err] /\
  emitted (onConnection ws st) =
    [ConsoleLog "Client connected"; ConsoleError "Error getting state:" err] /\
  pollTick st = mkResult (Normal tt) st [ConsoleError "Error polling:" err].
Proof.
  intros err. destruct (unsupported_platform Hn) as (H1 & H2 & H3).
  assert (Es : forall st', sendState ws st' =
                           mkResult (Normal tt) st' [ConsoleError "Error getting state:" err]).
  { intros st'. unfold sendState, try_catch, bind, await, getVolume.
    rewrite H1, H2, H3. destruct st'; reflexivity. }
  repeat split.
  - rewrite (onMessage_Normal _ ws st tt);
      rewrite handle_getState by reflexivity; now rewrite Es.
  - unfold onConnection, bind, modify, console_log, emit. cbn. now rewrite Es.
  - unfold pollTick, try_catch, bind, await, getVolume.
    rewrite H1, H2, H3. destruct st; reflexivity.
Qed.

End Reading.

(** ** What the backend is asked to do *)

Section Commands.
Context {env : Env}.
Import volumeController.
#[local] Arguments broadcastState : simpl never.

(** X8: [setVolume] converts its argument before anything else.  When
    the conversion throws (an object with an own [toString] entry, or an
    array that holds one), the call throws that TypeError and runs no
    command, on any platform.  Otherwise, on a supported platform, it runs
    exactly one command and ends normally: for an argument that converts
    to the integer [z] the command carries [clamp z 0 100], and for one
    that converts to NaN it carries NaN. *)
Theorem setVolume_command_clamped (volume : jsval) (w : World) :
  (forall e, ToNumber volume = Throw e ->
             setVolume volume w = mkResult (Throw e) w []) /\
  (supported platform ->
   (forall z, ToNumber volume = Normal (Int z) ->
              outcome (setVolume volume w) = Normal tt /\
              commands (emitted (setVolume volume w))
              = [volume_command (Int (clamp z 0 100))]) /\
   (ToNumber volume = Normal NaN ->
    outcome (setVolume volume w) = Normal tt /\
    commands (emitted (setVolume volume w)) = [volume_command NaN])).
Proof.
  split; [intros e He; now apply setVolume_throws|].
  intros Hs. split; [intros z Hn | intros Hn];
    rewrite (setVolume_run Hs volume _ w Hn); cbn [outcome emitted commands flat_map];
    (split; [reflexivity|]); destruct (fst (exec _ w)); reflexivity.
Qed.

Lemma match_control_here_nonempty (s d : string) :
  match_control_here s = Some d -> d <> EmptyString.
Proof.
  unfold match_control_here. destruct (drop_prefix _ s) as [t|]; [|discriminate].
  destruct (span_unquoted t) as [d' rest].
  destruct d', rest; try discriminate. now intros [= <-].
Qed.

Lemma match_control_nonempty (s d : string) :
  match_control s = Some d -> d <> EmptyString.
Proof.
  induction s as [|c t IH]; cbn [match_control].
  - destruct (match_control_here EmptyString) eqn:E; [|discriminate].
    intros [= <-]. now apply (match_control_here_nonempty EmptyString).
  - destruct (match_control_here (String c t)) eqn:E; [|exact IH].
    intros [= <-]. now apply (match_control_here_nonempty (String c t)).
Qed.

(** X9: on a supported platform [getOutputDevice] never returns the empty
    string: every state message names a device. *)
Theorem getOutputDevice_never_empty (Hs : supported platform) (w : World) (d : string) :
  outcome (getOutputDevice w) = Normal d -> d <> EmptyString.
Proof.
  pick Hs; run_wrapper w; intros [= <-]; try discriminate.
  - destruct (match_control out) eqn:E; [|discriminate].
    now apply (match_control_nonempty out).
  - destruct (trim out); discriminate.
  - destruct (trim out); discriminate.
Qed.

Lemma adjusted_throws (up : bool) (c : num) (value : jsval) (e : Error) :
  ToNumber value = Throw e -> adjusted up c value = Throw e.
Proof.
  intros He. unfold adjusted, js_add, js_sub.
  destruct value as [| |b| | |items|props]; try discriminate He;
    try (destruct b; discriminate He);
    cbv beta iota delta [ToNumber ToPrimitive and_then] in *;
    match goal with
    | H : context [ToString ?v] |- _ =>
        destruct (ToString v) as [t|e'] eqn:Et; [discriminate H|]
    end;
    injection He as <-; now destruct up.
Qed.

(** X27: a request whose value the arithmetic cannot convert (an object
    with an own [toString] entry, say) is not carried out: the TypeError
    of the conversion reaches the listener, which logs it and reports it
    to the requester alone; no set-volume command is run and nothing is
    broadcast.  For [setVolume] nothing at all is run, on any platform,
    and the state is as before; for [increaseVolume] and [decreaseVolume]
    on a supported platform the volume query has been made by then, and
    it is all that was run. *)
Theorem conversion_error_reported
    (data : jsval) (ws : WebSocket) (st : State) (e : Error) :
  readyState ws = OPEN ->
  ToNumber (getProp data "value") = Throw e ->
  let reply := [ConsoleError "Error handling message:" e;
                Sent (ws_id ws) (ErrorMsg (message e))] in
  (getProp data "action" = JStr "setVolume" ->
   onMessage (Parsed data) ws st = mkResult (Normal tt) st reply) /\
  (supported platform ->
   forall up : bool,
     getProp data "action" = JStr (if up then "increaseVolume" else "decreaseVolume") ->
     let read := getVolume (world st) in
     onMessage (Parsed data) ws st =
     mkResult (Normal tt) (set_world st (final read)) (emitted read ++ reply)).
Proof.
  intros Ho He reply. split.
  - intros Ha.
    assert (E : handleMessage data ws st = mkResult (Throw e) st []).
    { rewrite handle_setVolume by exact Ha.
      unfold bind. rewrite await_run, (setVolume_throws _ e _ He).
      destruct st; reflexivity. }
    unfold onMessage. rewrite (try_catch_Throw _ _ _ e) by now rewrite E.
    rewrite E. unfold bind, console_error, emit. cbn. now rewrite send_open.
  - intros Hs up Ha read.
    destruct (getVolume_ok Hs (world st)) as (c & Hc & _).
    assert (E : handleMessage data ws st =
                mkResult (Throw e) (set_world st (final read)) (emitted read)).
    { now rewrite (handle_adjust up c data ws st Ha Hc), (adjusted_throws up c _ e He). }
    unfold onMessage. rewrite (try_catch_Throw _ _ _ e) by now rewrite E.
    rewrite E. unfold bind, console_error, emit. cbn. now rewrite send_open.
Qed.

(** The two adjusting requests, for a backend that reports [c] and a
    value on which the arithmetic gives [n]. *)
Lemma adjust_run (Hs : supported platform)
    (up : bool) (c n : num) (data : jsval) (ws : WebSocket) (st : State) :
  getProp data "action" = JStr (if up then "increaseVolume" else "decreaseVolume") ->
  outcome (getVolume (world st)) = Normal c ->
  adjusted up c (getProp data "value") = Normal n ->
  let read := getVolume (world st) in
  let set := setVolume (JNum n) (final read) in
  onMessage (Parsed data) ws st =
  mkResult (Normal tt) (final (broadcastState (set_world st (final set))))
           (emitted read ++ emitted set ++
            emitted (broadcastState (set_world st (final set)))).
Proof.
  intros Ha Hc Hn read set.
  assert (E : handleMessage data ws st =
              mkResult (Normal tt) (final (broadcastState (set_world st (final set))))
                       (emitted read ++ emitted set ++
                        emitted (broadcastState (set_world st (final set))))).
  { rewrite (handle_adjust up c data ws st Ha Hc), Hn. cbn zeta.
    destruct (setVolume_ok Hs (JNum n) (final (getVolume (world st)))
                (convertible_number n)) as [Ho _].
    rewrite then_broadcast by exact Ho. reflexivity. }
  rewrite (onMessage_Normal data ws st tt) by now rewrite E.
  exact E.
Qed.

(** X10: when the volume query of an [increaseVolume] or [decreaseVolume]
    request fails, the handler goes on from the fallback 0: an increase by
    [delta] sets the volume to [clamp delta 0 100] and a decrease sets it
    to 0, whatever the volume really is.  The listener ends normally, the
    one set-volume command is the one for that target, the broadcast
    follows, and the only messages sent are those of that broadcast: no
    error reply. *)
Theorem adjust_after_failed_query (Hs : supported platform)
    (up : bool) (delta : Z) (cmd : string) (e : Error)
    (data : jsval) (ws : WebSocket) (st : State) :
  getProp data "action" = JStr (if up then "increaseVolume" else "decreaseVolume") ->
  getProp data "value" = JNum (Int delta) ->
  0 <= delta ->
  In (Exec cmd (ExecErr e)) (emitted (getVolume (world st))) ->
  let read := getVolume (world st) in
  let target := if up then clamp delta 0 100 else 0 in
  let ran := exec (volume_command (Int target)) (final read) in
  let st2 := set_world st (snd ran) in
  let r := onMessage (Parsed data) ws st in
  r = mkResult (Normal tt) (final (broadcastState st2))
        (emitted read ++
         Exec (volume_command (Int target)) (fst ran) ::
         match fst ran with
         | ExecOk _ => []
         | ExecErr e' => [ConsoleError "Error setting volume:" e']
         end ++ emitted (broadcastState st2))%list /\
  deliveries (emitted r) = deliveries (emitted (broadcastState st2)) /\
  no_error_reply (emitted r) = true.
Proof.
  intros Ha Hv Hd Hf read target ran st2 r.
  destruct (query_failure_defaults Hs (world st)) as (Hq & _).
  specialize (Hq cmd e Hf).
  assert (Hn : adjusted up (Int 0) (getProp data "value") = Normal (Int target)).
  { rewrite Hv, adjusted_integers. subst target. unfold clamp.
    destruct up; f_equal; f_equal; lia. }
  assert (T : Math_max (Int 0) (Math_min (Int 100) (Int target)) = Int target).
  { subst target. unfold clamp. destruct up; cbn; f_equal; lia. }
  assert (E : r = mkResult (Normal tt) (final (broadcastState st2))
                    (emitted read ++
                     Exec (volume_command (Int target)) (fst ran) ::
                     match fst ran with
                     | ExecOk _ => []
                     | ExecErr e' => [ConsoleError "Error setting volume:" e']
                     end ++ emitted (broadcastState st2))%list).
  { subst r. rewrite (adjust_run Hs up (Int 0) (Int target) data ws st Ha Hq Hn).
    rewrite (setVolume_run Hs (JNum (Int target)) (Int target) _ eq_refl).
    cbn zeta. rewrite T. reflexivity. }
  split; [exact E|]. rewrite E. cbn [emitted].
  destruct (getVolume_ok Hs (world st)) as (_ & _ & W1 & D1). fold read in W1, D1.
  destruct (broadcast_trace Hs st2) as [_ Nb].
  split.
  - rewrite deliveries_app, D1. cbn [app deliveries flat_map].
    rewrite deliveries_app. now destruct (fst ran).
  - rewrite no_error_reply_app, (silent_no_error_reply _ D1). cbn [andb].
    change (no_error_reply (Exec (volume_command (Int target)) (fst ran) :: ?l))
      with (no_error_reply l).
    rewrite no_error_reply_app, Nb. now destruct (fst ran).
Qed.

(** X11: when the mute query of a [toggleMute] request fails, the fallback
    [false] is what gets negated: the request mutes, whatever the mute
    state really is. *)
Theorem toggle_after_failed_query (Hs : supported platform)
    (cmd : string) (e : Error) (data : jsval) (ws : WebSocket) (st : State) :
  getProp data "action" = JStr "toggleMute" ->
  In (Exec cmd (ExecErr e)) (emitted (getMuted (world st))) ->
  let read := getMuted (world st) in
  let set := setMuted true (final read) in
  let st2 := set_world st (final set) in
  onMessage (Parsed data) ws st =
  mkResult (Normal tt) (final (broadcastState st2))
           (emitted read ++ emitted set ++ emitted (broadcastState st2)).
Proof.
  intros Ha Hf read set st2.
  destruct (query_failure_defaults Hs (world st)) as (_ & Hq & _).
  specialize (Hq cmd e Hf).
  assert (Hm : mutating (getProp data "action") = true) by now rewrite Ha.
  assert (Hv : value_converts data) by (apply no_value_converts; now rewrite Ha).
  destruct (mutation_handled Hs data ws st Hm Hv) as (_ & _ & _ & _ & Eh & _).
  rewrite Eh, handle_toggleMute by exact Ha.
  rewrite (bind_Normal _ _ _ false) by (rewrite await_run; exact Hq).
  rewrite await_run. cbn [final emitted negb].
  destruct (setMuted_ok Hs true (final (getMuted (world st)))) as [Ho _].
  rewrite then_broadcast by exact Ho. reflexivity.
Qed.

(** X12: with a backend that keeps the mute state it is given, a [mute]
    request leaves the machine muted and an [unmute] request leaves it
    unmuted, whatever the state was before; neither reads it first. *)
Theorem mute_unmute_set_state (mu : World -> bool) (Hf : faithful_mute mu)
    (b : bool) (data : jsval) (ws : WebSocket) (st : State) :
  getProp data "action" = JStr (if b then "mute" else "unmute") ->
  let r := onMessage (Parsed data) ws st in
  outcome r = Normal tt /\ mu (world (final r)) = b.
Proof.
  intros Ha r. pose proof Hf as (Hg & Hset & _).
  destruct (Hg (world st)) as [Hm _].
  pose proof (getMuted_Normal_supported _ _ Hm) as Hs.
  assert (Hmut : mutating (getProp data "action") = true)
    by (rewrite Ha; destruct b; reflexivity).
  assert (Hv : value_converts data)
    by (apply no_value_converts; rewrite Ha; destruct b; reflexivity).
  destruct (mutation_handled Hs data ws st Hmut Hv) as (pre & w1 & _ & _ & Eh & E).
  subst r. split; [now rewrite E|]. rewrite Eh.
  destruct (setMuted_ok Hs b (world st)) as [Ho _].
  destruct b;
    [rewrite handle_mute by exact Ha | rewrite handle_unmute by exact Ha];
    rewrite then_broadcast by exact Ho; cbn [final];
    rewrite (broadcast_keeps_mute mu Hf Hs); cbn [world set_world]; apply Hset.
Qed.

(** X13: on a supported platform a query whose subprocess fails answers
    with its fixed fallback and raises nothing: volume 0, not muted, and
    the platform's default device name. *)
Theorem failed_query_gives_default (Hs : supported platform)
    (w : World) (cmd : string) (e : Error) :
  (In (Exec cmd (ExecErr e)) (emitted (getVolume w)) ->
   outcome (getVolume w) = Normal (Int 0)) /\
  (In (Exec cmd (ExecErr e)) (emitted (getMuted w)) ->
   outcome (getMuted w) = Normal false) /\
  (In (Exec cmd (ExecErr e)) (emitted (getOutputDevice w)) ->
   outcome (getOutputDevice w) = Normal default_device).
Proof.
  destruct (query_failure_defaults Hs w) as (H1 & H2 & H3).
  repeat split; [apply H1 | apply H2 | apply H3].
Qed.

End Commands.

(** ** The poll loop *)

Section Polling.
Context {env : Env}.
Import volumeController.
#[local] Arguments broadcastState : simpl never.
#[local] Arguments getVolume : simpl never.
#[local] Arguments getMuted : simpl never.

Lemma strict_ne_Int (v : Z) (x : jsval) :
  strict_ne (JNum (Int v)) x = false -> x = JNum (Int v).
Proof.
  unfold strict_ne. destruct x as [| | |[z|]| | |]; cbn; try discriminate.
  intros H. apply negb_false_iff, Z.eqb_eq in H. now subst.
Qed.

Lemma strict_ne_bool (m : bool) (x : jsval) :
  strict_ne (JBool m) x = false -> x = JBool m.
Proof.
  unfold strict_ne. destruct x; cbn; try discriminate.
  intros H. apply negb_false_iff, Bool.eqb_prop in H. now subst.
Qed.

(** The snapshot a tick leaves when it observed an integer volume. *)
Lemma pollTick_snapshot (Hs : supported platform) (st : State) (v : Z) (m : bool) :
  outcome (getVolume (world st)) = Normal (Int v) ->
  outcome (getMuted (final (getVolume (world st)))) = Normal m ->
  lastVolume (final (pollTick st)) = JNum (Int v) /\
  lastMute (final (pollTick st)) = JBool m.
Proof.
  intros Hv Hm.
  destruct (pollTick_run Hs st) as (v' & m' & Hv' & Hm' & E).
  rewrite Hv in Hv'. rewrite Hm in Hm'. injection Hv' as <-. injection Hm' as <-.
  cbn zeta in E. rewrite E.
  destruct (strict_ne (JNum (Int v)) (lastVolume st)) eqn:E1; cbn [orb].
  - cbn [final].
    destruct (preserves_snapshot broadcastState
                (set_last (set_world st (final (getMuted (final (getVolume (world st))))))
                          (JNum (Int v)) (JBool m)) preserves_broadcastState) as [P1 P2].
    now rewrite P1, P2.
  - destruct (strict_ne (JBool m) (lastMute st)) eqn:E2.
    + cbn [final].
      destruct (preserves_snapshot broadcastState
                  (set_last (set_world st (final (getMuted (final (getVolume (world st))))))
                            (JNum (Int v)) (JBool m)) preserves_broadcastState) as [P1 P2].
      now rewrite P1, P2.
    + cbn. split; [now apply strict_ne_Int | now apply strict_ne_bool].
Qed.

(** X14: on a supported platform, when two ticks in a row observe the same
    integer volume and the same mute state, the second one sends nothing
    to anybody, whether or not the first one broadcast. *)
Theorem consecutive_ticks_quiet (Hs : supported platform)
    (st : State) (v : Z) (m : bool) :
  let r1 := pollTick st in
  outcome (getVolume (world st)) = Normal (Int v) ->
  outcome (getMuted (final (getVolume (world st)))) = Normal m ->
  outcome (getVolume (world (final r1))) = Normal (Int v) ->
  outcome (getMuted (final (getVolume (world (final r1))))) = Normal m ->
  deliveries (emitted (pollTick (final r1))) = [].
Proof.
  intros r1 Hv Hm Hv2 Hm2.
  destruct (pollTick_snapshot Hs st v m Hv Hm) as [L1 L2].
  now destruct (pollTick_unchanged Hs (final r1) v m Hv2 Hm2 L1 L2) as [D _].
Qed.

(** X15: the first tick after the start always broadcasts: the snapshot
    starts as [null], which no observed volume equals, so the tick records
    what it observed and runs the broadcast, whatever the state is. *)
Theorem first_tick_broadcasts (Hs : supported platform) (st : State) :
  lastVolume st = JNull ->
  let g1 := getVolume (world st) in
  let g2 := getMuted (final g1) in
  exists v m,
    outcome g1 = Normal v /\ outcome g2 = Normal m /\
    let st2 := set_last (set_world st (final g2)) (JNum v) (JBool m) in
    pollTick st =
    mkResult (Normal tt) (final (broadcastState st2))
             (emitted g1 ++ emitted g2 ++ emitted (broadcastState st2)).
Proof.
  intros Hl g1 g2.
  destruct (pollTick_run Hs st) as (v & m & Hv & Hm & E).
  exists v, m. repeat split; auto. cbn zeta in *. now rewrite E, Hl.
Qed.

(** X16: the poll loop runs only while its timer is set.  [startPolling]
    sets it, with the configured interval, exactly when polling is enabled
    in the settings; [stopPolling] clears it, twice as well as once; and
    once it is cleared a timer event runs no command and sends nothing. *)
Theorem polling_switch (st : State) :
  pollingTimer (final (startPolling st)) =
    (if pollingEnabled (store st)
     then Some (pollingInterval (store st))
     else pollingTimer st) /\
  pollingTimer (final (stopPolling st)) = None /\
  world (final (stopPolling st)) = world st /\
  final (stopPolling (final (stopPolling st))) = final (stopPolling st) /\
  onTimer (final (stopPolling st)) = mkResult (Normal tt) (final (stopPolling st)) [].
Proof.
  unfold startPolling, stopPolling, onTimer, bind, get, modify, ret. cbn.
  destruct (pollingEnabled (store st)); cbn;
    destruct (pollingTimer st) eqn:E; cbn; rewrite ?E; cbn; auto.
Qed.

End Polling.

(** ** Reading numbers off the output of a command *)

(** Evaluates the value of a digit that is written out. *)
Ltac eval_digit :=
  match goal with
  | |- context [digit_value 10 ?c] =>
      let v := eval vm_compute in (digit_value 10 c) in
      change (digit_value 10 c) with v
  end.

Lemma read_digits_uint (d : Decimal.uint) :
  forall acc, read_digits 10 (NilEmpty.string_of_uint d) (Some acc)
              = Some (uint_value acc d).
Proof.
  induction d; intros acc;
    cbn [read_digits NilEmpty.string_of_uint uint_value]; auto;
    eval_digit; apply IHd.
Qed.

Lemma read_digits_uint_start (d : Decimal.uint) :
  d <> Decimal.Nil ->
  read_digits 10 (NilEmpty.string_of_uint d) None = Some (uint_value 0 d).
Proof.
  destruct d; intros H; try contradiction;
    cbn [read_digits NilEmpty.string_of_uint uint_value];
    eval_digit; apply read_digits_uint.
Qed.

Lemma of_uint_acc_value (d : Decimal.uint) :
  forall p, Z.pos (Pos.of_uint_acc d p) = uint_value (Z.pos p) d.
Proof.
  induction d; intros p; cbn [Pos.of_uint_acc uint_value]; auto;
    rewrite IHd; f_equal; lia.
Qed.

Lemma of_uint_value (d : Decimal.uint) :
  Z.of_N (Pos.of_uint d) = uint_value 0 d.
Proof.
  induction d; cbn [Pos.of_uint uint_value Z.of_N]; auto;
    rewrite of_uint_acc_value; reflexivity.
Qed.

Lemma string_of_pos (p : positive) :
  string_of_Z (Z.pos p) = NilEmpty.string_of_uint (Pos.to_uint p).
Proof.
  unfold string_of_Z. cbn.
  pose proof (DecimalPos.Unsigned.to_uint_nonnil p) as H.
  destruct (Pos.to_uint p); [contradiction | reflexivity ..].
Qed.

(** Reading back the decimal digits of a number gives the number. *)
Lemma read_digits_string_of_Z (z : Z) :
  0 <= z -> read_digits 10 (string_of_Z z) None = Some z.
Proof.
  destruct z as [|p|p]; intros H; [reflexivity| |lia].
  rewrite string_of_pos, read_digits_uint_start
    by apply DecimalPos.Unsigned.to_uint_nonnil.
  now rewrite <- of_uint_value, DecimalPos.Unsigned.of_to.
Qed.

Lemma all_digits_uint (d : Decimal.uint) :
  all_digits (NilEmpty.string_of_uint d) = true.
Proof. induction d; cbn; auto. Qed.

Lemma all_digits_string_of_Z (z : Z) :
  0 <= z -> all_digits (string_of_Z z) = true /\ string_of_Z z <> EmptyString.
Proof.
  destruct z as [|p|p]; intros H; [split; [reflexivity | discriminate]| |lia].
  rewrite string_of_pos. split; [apply all_digits_uint|].
  pose proof (DecimalPos.Unsigned.to_uint_nonnil p) as Hn.
  destruct (Pos.to_uint p); [contradiction | discriminate ..].
Qed.

Lemma span_digits_app (s rest : string) :
  all_digits s = true -> starts_with_digit rest = false ->
  span_digits (s ++ rest) = (s, rest).
Proof.
  intros Hs Hr. induction s as [|c t IH];
    cbn [span_digits String.append all_digits] in *.
  - destruct rest as [|c r]; [reflexivity|].
    cbn [starts_with_digit span_digits] in *. now rewrite Hr.
  - apply andb_true_iff in Hs as [Hc Ht]. rewrite Hc, (IH Ht). reflexivity.
Qed.

Lemma span_digits_all (s d rest : string) :
  span_digits s = (d, rest) -> all_digits d = true.
Proof.
  revert d rest. induction s as [|c t IH]; cbn [span_digits]; intros d rest H.
  - now injection H as <- <-.
  - destruct (is_digit c) eqn:Hc.
    + destruct (span_digits t) as [d' r']. injection H as <- <-.
      cbn [all_digits]. rewrite Hc. now apply (IH d' r').
    + now injection H as <- <-.
Qed.

(** Ends a comparison of two readings of the same digits. *)
Ltac same_reading :=
  destruct (read_digits 10 _ None); [now rewrite Z.mul_1_l | reflexivity].

(** On digits only, [parseInt] reads the whole string in base ten. *)
Lemma parseInt_all_digits (s : string) :
  s <> EmptyString -> all_digits s = true ->
  parseInt s = match read_digits 10 s None with
               | Some v => Int v
               | None => NaN
               end.
Proof.
  intros Hn Hd. destruct s as [|c t]; [contradiction|]. clear Hn.
  cbn [all_digits] in Hd. apply andb_true_iff in Hd as [Hc Ht].
  destruct c as [[] [] [] [] [] [] [] []]; try discriminate Hc;
    unfold parseInt; cbn [trimStart];
    match goal with |- context [is_space ?c] => change (is_space c) with false end;
    match goal with |- context [wide_lead ?c] => change (wide_lead c) with false end;
    cbv beta iota zeta;
    first
      [ same_reading
      | destruct t as [|c2 t2];
        [ same_reading
        | cbn [all_digits] in Ht; apply andb_true_iff in Ht as [Hc2 Ht2];
          destruct c2 as [[] [] [] [] [] [] [] []]; try discriminate Hc2;
          cbv beta iota zeta; same_reading ] ].
Qed.

Lemma read_digits_nonneg (s : string) :
  forall acc v, match acc with Some a => 0 <= a | None => True end ->
                read_digits 10 s acc = Some v -> 0 <= v.
Proof.
  induction s as [|c t IH]; cbn [read_digits]; intros acc v Ha H.
  - destruct acc; [now injection H as <- | discriminate].
  - destruct (digit_value 10 c) as [k|] eqn:E.
    + apply (IH _ v) in H; [exact H|].
      assert (0 <= k).
      { unfold digit_value in E.
        destruct ((48 <=? Z.of_nat (nat_of_ascii c)) &&
                  (Z.of_nat (nat_of_ascii c) <=? 57))%Z eqn:E1.
        - injection E as <-. apply andb_true_iff in E1 as [E1 _].
          apply Z.leb_le in E1. lia.
        - cbn in E. discriminate. }
      destruct acc; lia.
    + destruct acc; [now injection H as <- | discriminate].
Qed.

Lemma read_digits_some (s : string) :
  all_digits s = true -> s <> EmptyString ->
  exists v, read_digits 10 s None = Some v.
Proof.
  assert (G : forall t acc, all_digits t = true ->
                            exists v, read_digits 10 t (Some acc) = Some v).
  { induction t as [|c t IH]; intros acc Ht; cbn [read_digits]; [eauto|].
    cbn [all_digits] in Ht. apply andb_true_iff in Ht as [Hc Ht].
    destruct (digit_value 10 c) eqn:E; [now apply IH|].
    exfalso. destruct c as [[] [] [] [] [] [] [] []];
      try discriminate Hc; vm_compute in E; discriminate E. }
  intros Hs Hn. destruct s as [|c t]; [contradiction|].
  cbn [all_digits] in Hs. apply andb_true_iff in Hs as [Hc Ht].
  cbn [read_digits].
  destruct (digit_value 10 c) eqn:E; [now apply G|].
  exfalso. destruct c as [[] [] [] [] [] [] [] []];
    try discriminate Hc; vm_compute in E; discriminate E.
Qed.

Lemma digit_value_range (c : ascii) (k : Z) :
  digit_value 10 c = Some k -> 0 <= k <= 9.
Proof.
  unfold digit_value.
  destruct ((48 <=? Z.of_nat (nat_of_ascii c)) &&
            (Z.of_nat (nat_of_ascii c) <=? 57))%Z eqn:E1.
  - intros [= <-]. apply andb_true_iff in E1 as [A B].
    apply Z.leb_le in A, B. lia.
  - cbn. discriminate.
Qed.

(** A run of digits denotes a number below the power of ten of its
    length. *)
Lemma read_digits_bound (s : string) :
  forall a v, 0 <= a -> read_digits 10 s (Some a) = Some v ->
              0 <= v < (a + 1) * 10 ^ Z.of_nat (String.length s).
Proof.
  induction s as [|c t IH]; cbn [read_digits String.length]; intros a v Ha H.
  - injection H as <-. cbn. lia.
  - assert (P : 0 < 10 ^ Z.of_nat (String.length t)) by (apply Z.pow_pos_nonneg; lia).
    rewrite Nat2Z.inj_succ, Z.pow_succ_r by lia.
    destruct (digit_value 10 c) as [k|] eqn:E.
    + apply digit_value_range in E. apply IH in H; [|nia]. nia.
    + injection H as <-. nia.
Qed.

Lemma read_digits_bound_start (s : string) (v : Z) :
  read_digits 10 s None = Some v -> 0 <= v < 10 ^ Z.of_nat (String.length s).
Proof.
  destruct s as [|c t]; cbn [read_digits String.length]; [discriminate|].
  assert (P : 0 < 10 ^ Z.of_nat (String.length t)) by (apply Z.pow_pos_nonneg; lia).
  rewrite Nat2Z.inj_succ, Z.pow_succ_r by lia.
  destruct (digit_value 10 c) as [k|] eqn:E; [|discriminate].
  apply digit_value_range in E. intros H. apply read_digits_bound in H; [|lia]. nia.
Qed.

Lemma match_percent_here_digits (s d : string) :
  match_percent_here s = Some d -> all_digits d = true /\ d <> EmptyString.
Proof.
  destruct s as [|c t]; [discriminate|].
  destruct c as [[] [] [] [] [] [] [] []]; try discriminate.
  unfold match_percent_here. destruct (span_digits t) as [d' rest] eqn:E.
  destruct d' as [|c' d'']; [discriminate|].
  destruct (String.prefix "%]" rest); [|discriminate].
  intros [= <-]. split; [now apply (span_digits_all t _ rest) | discriminate].
Qed.

Lemma match_percent_digits (s d : string) :
  match_percent s = Some d -> all_digits d = true /\ d <> EmptyString.
Proof.
  induction s as [|c t IH]; cbn [match_percent].
  - destruct (match_percent_here EmptyString) eqn:E; [|discriminate].
    intros [= <-]. now apply (match_percent_here_digits EmptyString).
  - destruct (match_percent_here (String c t)) eqn:E; [|exact IH].
    intros [= <-]. now apply (match_percent_here_digits (String c t)).
Qed.

Section Linux_volume.
Context {env : Env}.
Import volumeController.

(** X17: on Linux the volume reported is never NaN.  Whether or not
    [amixer] runs and whatever it prints, provided a percentage it prints
    has at most fifteen digits (a number [parseInt] reads exactly),
    [getVolume] returns a non-negative integer: the digits of the first
    percentage, and 0 when there is none or the command fails. *)
Theorem getVolume_linux_is_natural (w : World) :
  platform = "linux" ->
  (forall out d, fst (exec "amixer get Master" w) = ExecOk out ->
                 match_percent out = Some d -> (String.length d <= 15)%nat) ->
  exists v, outcome (getVolume w) = Normal (Int v) /\ 0 <= v < 10 ^ 15.
Proof.
  intros Hp Hlen. unfold getVolume. rewrite Hp. cbn [String.eqb Ascii.eqb Bool.eqb].
  unfold getVolumeLinux, try_catch, bind, execAsync, ret, console_error, emit.
  destruct (exec "amixer get Master" w) as [[out|e] w'] eqn:Ex; cbn in Hlen |- *;
    [|exists 0; split; [reflexivity | lia]].
  destruct (match_percent out) as [d|] eqn:E; [|exists 0; split; [reflexivity | lia]].
  destruct (match_percent_digits out d E) as [Hd Hn].
  rewrite (parseInt_all_digits d Hn Hd).
  destruct (read_digits_some d Hd Hn) as [v Hv]. rewrite Hv.
  exists v. split; [reflexivity|].
  pose proof (read_digits_bound_start d v Hv) as [B1 B2].
  specialize (Hlen out d eq_refl E).
  pose proof (Z.pow_le_mono_r 10 (Z.of_nat (String.length d)) 15
                ltac:(lia) ltac:(lia)) as B3.
  change (10 ^ 15) with 1000000000000000 in B3 |- *. lia.
Qed.

Lemma match_percent_here_other (c : ascii) (t : string) :
  Ascii.eqb c "[" = false -> match_percent_here (String c t) = None.
Proof.
  destruct c as [[] [] [] [] [] [] [] []]; try reflexivity. discriminate.
Qed.

Lemma match_percent_skip (pre rest : string) :
  no_bracket pre = true -> match_percent (pre ++ rest) = match_percent rest.
Proof.
  induction pre as [|c t IH]; intros H; [reflexivity|].
  cbn [no_bracket] in H. apply andb_true_iff in H as [Hc Ht].
  apply negb_true_iff in Hc.
  cbn [String.append match_percent]. rewrite (match_percent_here_other c _ Hc).
  now apply IH.
Qed.

Lemma match_percent_first (pre post : string) (n : Z) :
  0 <= n -> no_bracket pre = true ->
  match_percent (pre ++ "[" ++ string_of_Z n ++ "%]" ++ post)
  = Some (string_of_Z n).
Proof.
  intros Hn Hp. rewrite (match_percent_skip pre _ Hp).
  destruct (all_digits_string_of_Z n Hn) as [Hd Hne].
  cbn [String.append match_percent]. unfold match_percent_here.
  rewrite (span_digits_app (string_of_Z n) (String "%" (String "]" post)) Hd)
    by reflexivity.
  assert (P : String.prefix "%]" (String "%" (String "]" post)) = true)
    by (destruct post; reflexivity).
  rewrite P. destruct (string_of_Z n); [contradiction | reflexivity].
Qed.

(** X18: on Linux, when the output of [amixer get Master] has a first
    bracket that holds the percentage [n] (the line of the first channel),
    [getVolume] returns [n], whatever follows it; [n] is a natural number
    below 2^53, which [parseInt] reads exactly. *)
Theorem getVolume_linux_first_percentage
    (w w' : World) (pre post : string) (n : Z) :
  platform = "linux" ->
  exec "amixer get Master" w =
    (ExecOk (pre ++ "[" ++ string_of_Z n ++ "%]" ++ post), w') ->
  0 <= n < 2 ^ 53 -> no_bracket pre = true ->
  outcome (getVolume w) = Normal (Int n).
Proof.
  intros Hp He [Hn _] Hb. unfold getVolume. rewrite Hp.
  cbn [String.eqb Ascii.eqb Bool.eqb].
  unfold getVolumeLinux, try_catch, bind, execAsync, ret. rewrite He.
  cbn [outcome final emitted]. rewrite (match_percent_first pre post n Hn Hb).
  destruct (all_digits_string_of_Z n Hn) as [Hd Hne].
  now rewrite (parseInt_all_digits _ Hne Hd), (read_digits_string_of_Z n Hn).
Qed.

End Linux_volume.

(** ** A backend that keeps the volume *)

Section Faithful_volume.
Context {env : Env}.
Import volumeController.
#[local] Arguments broadcastState : simpl never.

Lemma getVolume_Normal_supported (w : World) (v : num) :
  outcome (getVolume w) = Normal v -> supported platform.
Proof.
  unfold getVolume, supported.
  destruct (platform =? "linux") eqn:E1; [apply String.eqb_eq in E1; auto|].
  destruct (platform =? "darwin") eqn:E2; [apply String.eqb_eq in E2; auto|].
  destruct (platform =? "win32") eqn:E3; [apply String.eqb_eq in E3; auto|].
  discriminate.
Qed.

Variable vol : World -> Z.
Hypothesis Hf : faithful_volume vol.

Lemma faithful_supported (w : World) : supported platform.
Proof.
  destruct Hf as (Hg & _). destruct (Hg w) as [H _].
  exact (getVolume_Normal_supported _ _ H).
Qed.

(** What a broadcast tells the clients it reaches, and what it leaves. *)
Lemma broadcast_announces (st : State) (clients : list WebSocket) :
  wss st = Some clients ->
  vol (world (final (broadcastState st))) = vol (world st) /\
  exists m d,
    deliveries (emitted (broadcastState st)) =
    map (fun c => (ws_id c, StateMsg (Int (vol (world st))) m d)) (reached clients).
Proof.
  intros Hw. pose proof (faithful_supported (world st)) as Hs.
  destruct Hf as (Hg & _ & Hm & Hd).
  rewrite broadcastState_run, Hw. cbn zeta.
  destruct (observe_ok Hs (world st)) as (v & m & d & Hq & Hv & _ & Ef & _ & Dq).
  rewrite Hq. cbn [final emitted world set_world]. split.
  - rewrite Ef, Hd, Hm. now destruct (Hg (world st)) as [_ ->].
  - destruct (Hg (world st)) as [Hv' _]. rewrite Hv' in Hv. injection Hv as <-.
    exists m, d. rewrite !deliveries_app, Dq. cbn [app].
    clear. induction (reached clients) as [|c t IH]; cbn; [reflexivity|].
    now rewrite <- IH.
Qed.

Lemma broadcast_keeps_volume (st : State) :
  vol (world (final (broadcastState st))) = vol (world st).
Proof.
  destruct (wss st) as [clients|] eqn:Hw.
  - now destruct (broadcast_announces st clients Hw).
  - rewrite broadcastState_run, Hw. reflexivity.
Qed.

(** The machine after a [setVolume] call of the controller. *)
Lemma setVolume_sets (v : Z) (w : World) :
  vol (final (setVolume (JNum (Int v)) w)) = clamp v 0 100.
Proof.
  pose proof (faithful_supported w) as Hs. destruct Hf as (_ & Hset & _).
  rewrite (setVolume_run Hs (JNum (Int v)) (Int v) w eq_refl).
  cbn [final Math_min Math_max].
  apply Hset. unfold clamp. lia.
Qed.

Lemma setVolume_request
    (v : Z) (data : jsval) (ws : WebSocket) (st : State) (clients : list WebSocket) :
  getProp data "action" = JStr "setVolume" ->
  getProp data "value" = JNum (Int v) ->
  wss st = Some clients ->
  let r := onMessage (Parsed data) ws st in
  vol (world (final r)) = clamp v 0 100 /\
  exists m d,
    deliveries (emitted r) =
    map (fun c => (ws_id c, StateMsg (Int (clamp v 0 100)) m d)) (reached clients).
Proof.
  intros Ha Hv Hw r. pose proof (faithful_supported (world st)) as Hs.
  assert (Hm : mutating (getProp data "action") = true) by now rewrite Ha.
  assert (Hc : value_converts data) by (intros _; rewrite Hv; apply convertible_number).
  destruct (mutation_handled Hs data ws st Hm Hc) as (_ & _ & _ & _ & Eh & _).
  subst r. rewrite Eh, handle_setVolume, Hv by exact Ha.
  destruct (setVolume_ok Hs (JNum (Int v)) (world st) (convertible_number _))
    as [Ho [_ Ds]].
  rewrite then_broadcast by exact Ho. cbn [final emitted].
  set (st1 := set_world st (final (setVolume (JNum (Int v)) (world st)))).
  assert (V1 : vol (world st1) = clamp v 0 100) by apply setVolume_sets.
  destruct (broadcast_announces st1 clients Hw) as (Hk & m & d & Hb).
  split; [now rewrite Hk|].
  exists m, d. now rewrite deliveries_app, Ds, Hb, V1.
Qed.

(** X19: with a backend that keeps the volume it is given, a [setVolume]
    request with the integer [v] leaves the machine at [clamp v 0 100],
    and the broadcast that follows tells exactly that volume to every
    client it reaches. *)
Theorem volume_change_is_announced
    (v : Z) (data : jsval) (ws : WebSocket) (st : State) (clients : list WebSocket) :
  getProp data "action" = JStr "setVolume" ->
  getProp data "value" = JNum (Int v) ->
  wss st = Some clients ->
  let r := onMessage (Parsed data) ws st in
  vol (world (final r)) = clamp v 0 100 /\
  exists m d,
    deliveries (emitted r) =
    map (fun c => (ws_id c, StateMsg (Int (clamp v 0 100)) m d)) (reached clients).
Proof.
  intros Ha Hv Hw r.
  destruct (setVolume_request v data ws st clients Ha Hv Hw) as (V & m & d & D).
  split; [exact V|]. exists m, d. exact D.
Qed.

(** The machine after an adjusting request. *)
Lemma adjust_sets (up : bool) (delta : Z) (data : jsval) (ws : WebSocket) (st : State) :
  getProp data "action" = JStr (if up then "increaseVolume" else "decreaseVolume") ->
  getProp data "value" = JNum (Int delta) ->
  vol (world (final (onMessage (Parsed data) ws st))) =
  clamp (if up then vol (world st) + delta else vol (world st) - delta) 0 100.
Proof.
  intros Ha Hv. pose proof (faithful_supported (world st)) as Hs.
  pose proof Hf as (Hg & _). destruct (Hg (world st)) as [Hc Hk].
  assert (Hn : adjusted up (Int (vol (world st))) (getProp data "value") =
               Normal (if up then Int (Z.min 100 (vol (world st) + delta))
                       else Int (Z.max 0 (vol (world st) - delta))))
    by (rewrite Hv; apply adjusted_integers).
  rewrite (adjust_run Hs up (Int (vol (world st))) _ data ws st Ha Hc Hn).
  cbn [final]. rewrite broadcast_keeps_volume. cbn [world set_world].
  destruct up; rewrite setVolume_sets; unfold clamp; lia.
Qed.

(** X20: with such a backend, an increase by [delta] followed by a
    decrease by [delta] brings the volume back where it was, provided the
    increase did not hit the upper bound; when it does hit the bound, the
    two requests end [delta] below 100 instead. *)
Theorem increase_then_decrease
    (delta : Z) (inc dec : jsval) (ws : WebSocket) (st : State) :
  getProp inc "action" = JStr "increaseVolume" ->
  getProp inc "value" = JNum (Int delta) ->
  getProp dec "action" = JStr "decreaseVolume" ->
  getProp dec "value" = JNum (Int delta) ->
  0 <= delta <= 100 -> 0 <= vol (world st) ->
  let r1 := onMessage (Parsed inc) ws st in
  let r2 := onMessage (Parsed dec) ws (final r1) in
  vol (world (final r2)) = Z.min (vol (world st)) (100 - delta).
Proof.
  intros Hi1 Hi2 Hd1 Hd2 Hr Hv r1 r2. subst r1 r2.
  rewrite (adjust_sets false delta dec ws _ Hd1 Hd2).
  rewrite (adjust_sets true delta inc ws st Hi1 Hi2).
  unfold clamp. lia.
Qed.

(** X21: with such a backend, a volume change made through a request is
    announced twice.  The handler broadcasts it but does not record it in
    the poll snapshot, so when the snapshot holds another volume the tick
    that follows broadcasts the same volume once more. *)
Theorem change_is_announced_again_by_poll
    (v v0 : Z) (data : jsval) (ws : WebSocket) (st : State) (clients : list WebSocket) :
  getProp data "action" = JStr "setVolume" ->
  getProp data "value" = JNum (Int v) ->
  wss st = Some clients ->
  lastVolume st = JNum (Int v0) -> v0 <> clamp v 0 100 ->
  let r := onMessage (Parsed data) ws st in
  let tick := pollTick (final r) in
  exists m d m' d',
    deliveries (emitted r) =
      map (fun c => (ws_id c, StateMsg (Int (clamp v 0 100)) m d)) (reached clients) /\
    deliveries (emitted tick) =
      map (fun c => (ws_id c, StateMsg (Int (clamp v 0 100)) m' d')) (reached clients).
Proof.
  intros Ha Hv Hw Hl Hne r tick. pose proof (faithful_supported (world st)) as Hs.
  destruct (setVolume_request v data ws st clients Ha Hv Hw) as (V & m & d & D).
  fold r in V, D.
  pose proof (preserves_onMessage (Parsed data) ws st) as P.
  unfold server_part in P. fold r in P.
  assert (Hw' : wss (final r) = Some clients) by (injection P as _ -> _ _ _; exact Hw).
  assert (Hl' : lastVolume (final r) = JNum (Int v0))
    by (injection P as _ _ _ -> _; exact Hl).
  clear P. pose proof Hf as (Hg & _ & Hm & _).
  destruct (pollTick_run Hs (final r)) as (v1 & m1 & Hv1 & Hm1 & E).
  destruct (Hg (world (final r))) as [Hv1' Hk]. rewrite Hv1' in Hv1.
  injection Hv1 as <-. cbn zeta in E.
  assert (C : strict_ne (JNum (Int (vol (world (final r))))) (lastVolume (final r)) = true).
  { rewrite Hl', V. unfold strict_ne. cbn. apply negb_true_iff, Z.eqb_neq. congruence. }
  rewrite C in E. cbn [orb] in E.
  set (st2 := set_last (set_world (final r)
                          (final (getMuted (final (getVolume (world (final r)))))))
                       (JNum (Int (vol (world (final r))))) (JBool m1)) in E.
  destruct (broadcast_announces st2 clients Hw') as (_ & m' & d' & B).
  assert (V2 : vol (world st2) = clamp v 0 100).
  { subst st2. cbn [world set_last set_world]. now rewrite Hm, Hk. }
  destruct (getVolume_ok Hs (world (final r))) as (_ & _ & _ & D1).
  destruct (getMuted_ok Hs (final (getVolume (world (final r))))) as (_ & _ & _ & D2).
  exists m, d, m', d'. split; [exact D|].
  subst tick. rewrite E. cbn [emitted]. now rewrite !deliveries_app, D1, D2, B, V2.
Qed.

End Faithful_volume.

(** ** The macOS machine keeps the volume *)

Lemma is_digit_no_space (c : ascii) :
  is_digit c = true -> is_space c = false /\ wide_lead c = false.
Proof. destruct c as [[] [] [] [] [] [] [] []]; try discriminate; split; reflexivity. Qed.

Lemma all_digits_no_space (s : string) : all_digits s = true -> no_space s = true.
Proof.
  induction s as [|c t IH]; [reflexivity|]. cbn [all_digits no_space].
  intros H. apply andb_true_iff in H as [Hc Ht].
  destruct (is_digit_no_space c Hc) as [-> ->]. now rewrite (IH Ht).
Qed.

Lemma trimStart_no_space (c : ascii) (t : string) :
  is_space c = false -> wide_lead c = false -> trimStart (String c t) = String c t.
Proof. intros H1 H2. cbn [trimStart]. now rewrite H1, H2. Qed.

Lemma trimEnd_line (s : string) : no_space s = true -> trimEnd (s ++ nl) = s.
Proof.
  induction s as [|c t IH]; [reflexivity|]. cbn [no_space].
  intros H. apply andb_true_iff in H as [H Ht]. apply andb_true_iff in H as [Hc Hw].
  apply negb_true_iff in Hc, Hw.
  cbn [String.append trimEnd]. rewrite (trimStart_no_space _ _ Hc Hw). now rewrite (IH Ht).
Qed.

Lemma trim_line (s : string) : no_space s = true -> trim (s ++ nl) = s.
Proof.
  intros H. destruct s as [|c t]; [reflexivity|]. unfold trim.
  replace (trimStart (String c t ++ nl)) with (String c t ++ nl);
    [now apply trimEnd_line|].
  cbn [no_space] in H. apply andb_true_iff in H as [H _].
  apply andb_true_iff in H as [Hc Hw]. apply negb_true_iff in Hc, Hw.
  cbn [String.append]. now rewrite (trimStart_no_space _ _ Hc Hw).
Qed.

(** A minus sign and digits: [parseInt] reads the digits and negates. *)
Lemma parseInt_minus_digits (s : string) :
  s <> EmptyString -> all_digits s = true ->
  parseInt (String "-" s) = match read_digits 10 s None with
                            | Some v => Int (- v)
                            | None => NaN
                            end.
Proof.
  intros Hn Hd. destruct s as [|c t]; [contradiction|]. clear Hn.
  cbn [all_digits] in Hd. apply andb_true_iff in Hd as [Hc Ht].
  assert (F : forall x, match read_digits 10 x None with
                        | Some v => Int (-1 * v)
                        | None => NaN
                        end
                        = match read_digits 10 x None with
                          | Some v => Int (- v)
                          | None => NaN
                          end).
  { intros x. destruct (read_digits 10 x None) as [z|]; [|reflexivity].
    now destruct z. }
  destruct c as [[] [] [] [] [] [] [] []]; try discriminate Hc;
    unfold parseInt; cbn [trimStart];
    change (is_space "-") with false; change (wide_lead "-") with false;
    cbv beta iota zeta;
    first
      [ apply F
      | destruct t as [|c2 t2];
        [ apply F
        | cbn [all_digits] in Ht; apply andb_true_iff in Ht as [Hc2 Ht2];
          destruct c2 as [[] [] [] [] [] [] [] []]; try discriminate Hc2;
          cbv beta iota zeta; apply F ] ].
Qed.

(** Printing an integer and reading it back, through a line of output. *)
Lemma parseInt_printed_line (z : Z) :
  parseInt (trim (string_of_Z z ++ nl)) = Int z.
Proof.
  destruct z as [|p|p]; [reflexivity| |].
  - destruct (all_digits_string_of_Z (Z.pos p)) as [Hd Hn]; [lia|].
    rewrite trim_line by now apply all_digits_no_space.
    rewrite (parseInt_all_digits _ Hn Hd), read_digits_string_of_Z by lia.
    reflexivity.
  - assert (E : string_of_Z (Z.neg p) = String "-" (string_of_Z (Z.pos p))).
    { unfold string_of_Z. cbn.
      pose proof (DecimalPos.Unsigned.to_uint_nonnil p) as H.
      destruct (Pos.to_uint p); [contradiction | reflexivity ..]. }
    destruct (all_digits_string_of_Z (Z.pos p)) as [Hd Hn]; [lia|].
    rewrite E, trim_line
      by (cbn [no_space]; now rewrite (all_digits_no_space _ Hd)).
    rewrite (parseInt_minus_digits _ Hn Hd), read_digits_string_of_Z by lia.
    reflexivity.
Qed.

Section Mac_volume.
Import Hosts.

Lemma mac_getVolume (w : Mac) :
  @volumeController.getVolume mac w =
  mkResult (Normal (parseInt (trim (string_of_Z (mac_volume w) ++ nl)))) w
    [Exec ("osascript -e " ++ dq ++ "output volume of (get volume settings)" ++ dq)
          (ExecOk (string_of_Z (mac_volume w) ++ nl))].
Proof. reflexivity. Qed.

Lemma mac_set_volume_command (arg : string) (w : Mac) :
  osascript ("osascript -e " ++ dq ++ "set volume output volume " ++ arg) w =
  (let (d, rest) := span_digits arg in
   match read_digits 10 d None with
   | Some v =>
       if rest =? dq
       then (ExecOk EmptyString, mkMac (Z.min 100 v) (mac_muted w))
       else (ExecErr (mkError "osascript: syntax error"), w)
   | None => (ExecErr (mkError "osascript: syntax error"), w)
   end).
Proof. reflexivity. Qed.

Lemma mac_set_volume (n : Z) (w : Mac) :
  0 <= n <= 100 ->
  snd (osascript (@volume_command mac (Int n)) w) = mkMac n (mac_muted w).
Proof.
  intros Hn.
  destruct (all_digits_string_of_Z n) as [Hd Hne]; [lia|].
  change (@volume_command mac (Int n))
    with ("osascript -e " ++ dq ++ "set volume output volume " ++ string_of_Z n ++ dq).
  rewrite mac_set_volume_command.
  rewrite (span_digits_app (string_of_Z n) dq Hd) by reflexivity.
  rewrite read_digits_string_of_Z by lia.
  rewrite String.eqb_refl. cbn [snd]. f_equal. lia.
Qed.

(** The macOS machine keeps the volume it is given. *)
Lemma mac_faithful_volume : @faithful_volume mac mac_volume.
Proof.
  unfold faithful_volume. split; [|split; [|split]].
  - intros w. rewrite (mac_getVolume w). cbn [outcome final].
    now rewrite parseInt_printed_line.
  - intros n w Hn. exact (f_equal mac_volume (mac_set_volume n w Hn)).
  - intros w. destruct w as [v []]; reflexivity.
  - intros w. destruct w as [v m]; reflexivity.
Defined.

End Mac_volume.

(** ** Settings and command lines *)

(** What the start-up leaves under each key. *)
Lemma set_defaults_at (store : settings.Store) (key : string) :
  settings.set_defaults store key =
  match store key with
  | Some v => Some v
  | None =>
      if key =? "port" then Some (JNum (Int 8080))
      else if key =? "pollingEnabled" then Some (JBool true)
      else if key =? "pollingInterval" then Some (JNum (Int 500))
      else if key =? "autostart" then Some (JBool false)
      else None
  end.
Proof.
  unfold settings.set_defaults, settings.has, settings.set. cbv zeta.
  destruct (store "port") eqn:E1; destruct (store "pollingEnabled") eqn:E2;
    destruct (store "pollingInterval") eqn:E3; destruct (store "autostart") eqn:E4;
    repeat (progress (cbn; rewrite ?E1, ?E2, ?E3, ?E4));
    (destruct (key =? "port") eqn:K1;
     [apply String.eqb_eq in K1; subst key; cbn; rewrite ?E1; reflexivity|]);
    (destruct (key =? "pollingEnabled") eqn:K2;
     [apply String.eqb_eq in K2; subst key; cbn; rewrite ?E2; reflexivity|]);
    (destruct (key =? "pollingInterval") eqn:K3;
     [apply String.eqb_eq in K3; subst key; cbn; rewrite ?E3; reflexivity|]);
    (destruct (key =? "autostart") eqn:K4;
     [apply String.eqb_eq in K4; subst key; cbn; rewrite ?E4; reflexivity|]);
    destruct (store key); reflexivity.
Qed.

(** X25: setting the defaults at start-up never overwrites a persisted
    value: a key that is present keeps what it holds, each of the four
    keys of the program is present afterwards, any other key is left as it
    was, and doing it again changes nothing. *)
Theorem set_defaults_fills_gaps (store : settings.Store) (key : string) :
  (settings.has store key = true ->
   settings.get (settings.set_defaults store) key = settings.get store key) /\
  (settings.known key = true ->
   settings.has (settings.set_defaults store) key = true) /\
  (settings.known key = false ->
   settings.set_defaults store key = store key) /\
  settings.set_defaults (settings.set_defaults store) key
  = settings.set_defaults store key.
Proof.
  repeat split.
  - unfold settings.has, settings.get. rewrite set_defaults_at.
    destruct (store key); [reflexivity | discriminate].
  - unfold settings.known, settings.has. rewrite set_defaults_at.
    destruct (store key); [reflexivity|].
    destruct (key =? "port"); [reflexivity|].
    destruct (key =? "pollingEnabled"); [reflexivity|].
    destruct (key =? "pollingInterval"); [reflexivity|].
    destruct (key =? "autostart"); [reflexivity | discriminate].
  - unfold settings.known. rewrite !orb_false_iff. intros [[[K1 K2] K3] K4].
    rewrite set_defaults_at, K1, K2, K3, K4. now destruct (store key).
  - rewrite (set_defaults_at (settings.set_defaults store)), set_defaults_at.
    destruct (store key); [reflexivity|].
    destruct (key =? "port"); [reflexivity|].
    destruct (key =? "pollingEnabled"); [reflexivity|].
    destruct (key =? "pollingInterval"); [reflexivity|].
    destruct (key =? "autostart"); reflexivity.
Qed.

Lemma one_line_app (a b : string) :
  one_line (a ++ b) = one_line a && one_line b.
Proof.
  induction a as [|c t IH]; [reflexivity|]. cbn [String.append one_line].
  now rewrite IH, andb_assoc.
Qed.

Lemma one_line_replace (s : string) : one_line (replace_newlines s) = true.
Proof.
  induction s as [|c t IH]; [reflexivity|]. cbn [replace_newlines one_line].
  rewrite IH. destruct (Ascii.eqb c (ascii_of_nat 10)) eqn:E; [reflexivity|].
  now rewrite E.
Qed.

(** X26: the PowerShell script of [setVolumeWindows] is written over
    several lines, but the command handed to the shell never contains a
    line feed, whatever the volume: every one of them has been replaced. *)
Theorem setVolumeWindows_command_one_line (volume : num) :
  one_line (volumeController.setVolumeWindows_command volume) = true.
Proof.
  unfold volumeController.setVolumeWindows_command. cbv zeta.
  rewrite !one_line_app, one_line_replace. reflexivity.
Qed.

(** ** The further properties at concrete inputs *)

Section Further_concrete.
Import Hosts Scenarios More_hosts.

Lemma freebsd_unsupported : ~ supported (@platform freebsd).
Proof. intros [H | [H | H]]; discriminate H. Defined.

(** A message that does not parse, from a healthy client. *)
Lemma listener_resolves_witness :
  outcome (@onMessage linux_mixer (Malformed (mkError "Unexpected end of JSON input"))
             (client 1) (@serving linux_mixer (mkMixer 40 false) [client 1])) = Normal tt.
Proof. apply (@listener_resolves linux_mixer). discriminate. Defined.

(** An [isMuted] request on the Linux machine. *)
Lemma state_request_answers_requester_witness :
  deliveries (emitted (@onMessage linux_mixer (Parsed (bare "isMuted")) (client 2)
                         (@serving linux_mixer (mkMixer 40 true) [client 1; client 2])))
  = [(2%nat, StateMsg (Int 40) true "Master")].
Proof.
  destruct (@state_request_answers_requester linux_mixer (or_introl eq_refl)
              (bare "isMuted") (client 2)
              (@serving linux_mixer (mkMixer 40 true) [client 1; client 2])
              eq_refl eq_refl) as (state & Hq & _ & D).
  rewrite D. injection Hq as <-. reflexivity.
Defined.

(** A second client connects to the Linux machine. *)
Lemma new_connection_gets_state_witness :
  deliveries (emitted (@onConnection linux_mixer (client 2)
                         (@serving linux_mixer (mkMixer 40 false) [client 1])))
  = [(2%nat, StateMsg (Int 40) false "Master")].
Proof.
  destruct (@new_connection_gets_state linux_mixer (or_introl eq_refl) (client 2)
              (@serving linux_mixer (mkMixer 40 false) [client 1]) eq_refl)
    as (state & Hq & D & _).
  rewrite D. injection Hq as <-. reflexivity.
Defined.

(** A tick of the poll loop on FreeBSD. *)
Lemma unsupported_platform_reads_are_silent_witness :
  deliveries (emitted (@pollTick freebsd (@serving freebsd tt [client 1]))) = [].
Proof.
  destruct (@unsupported_platform_reads_are_silent freebsd freebsd_unsupported
              (client 1) (@serving freebsd tt [client 1])) as (_ & _ & E).
  rewrite E. reflexivity.
Defined.

(** A request for 150 on FreeBSD. *)
Lemma unsupported_platform_reported_witness :
  deliveries (emitted (@onMessage freebsd (Parsed (request "setVolume" (JNum (Int 150))))
                         (client 1) (@serving freebsd tt [client 1; client 2])))
  = [(1%nat, ErrorMsg "Unsupported platform: freebsd")].
Proof.
  destruct (@unsupported_platform_reported freebsd freebsd_unsupported
              (request "setVolume" (JNum (Int 150))) (client 1)
              (@serving freebsd tt [client 1; client 2]) eq_refl eq_refl)
    as [R _].
  rewrite R; [reflexivity|]. intros _. now exists (Int 150).
Defined.

(** A text where a number is expected, and a number beyond the range. *)
Lemma setVolume_command_clamped_witness :
  commands (emitted (@volumeController.setVolume linux_mixer (JStr "loud")
                       (mkMixer 40 false)))
  = ["amixer set Master NaN%"] /\
  commands (emitted (@volumeController.setVolume linux_mixer (JNum (Int 150))
                       (mkMixer 40 false)))
  = ["amixer set Master 100%"].
Proof.
  split.
  - destruct (@setVolume_command_clamped linux_mixer (JStr "loud") (mkMixer 40 false))
      as [_ H].
    destruct (H (or_introl eq_refl)) as [_ Hn].
    destruct (Hn eq_refl) as [_ E]. rewrite E. reflexivity.
  - destruct (@setVolume_command_clamped linux_mixer (JNum (Int 150)) (mkMixer 40 false))
      as [_ H].
    destruct (H (or_introl eq_refl)) as [Hz _].
    destruct (Hz 150 eq_refl) as [_ E]. rewrite E. reflexivity.
Defined.

(** An increase by an object that has an own [toString] entry. *)
Lemma conversion_error_reported_witness :
  deliveries (emitted (@onMessage linux_mixer
                         (Parsed (request "increaseVolume"
                                    (JObj [("toString", JNum (Int 0))])))
                         (client 1)
                         (@serving linux_mixer (mkMixer 40 false) [client 1; client 2])))
  = [(1%nat, ErrorMsg "Cannot convert object to primitive value")].
Proof.
  destruct (@conversion_error_reported linux_mixer
              (request "increaseVolume" (JObj [("toString", JNum (Int 0))]))
              (client 1)
              (@serving linux_mixer (mkMixer 40 false) [client 1; client 2])
              TypeError_not_primitive eq_refl eq_refl) as [_ H].
  rewrite (H (or_introl eq_refl) true eq_refl). reflexivity.
Defined.

(** The device the Linux machine names. *)
Lemma getOutputDevice_never_empty_witness :
  outcome (@volumeController.getOutputDevice linux_mixer (mkMixer 40 false))
  = Normal "Master" /\ "Master" <> EmptyString.
Proof.
  split; [reflexivity|].
  apply (@getOutputDevice_never_empty linux_mixer (or_introl eq_refl)
           (mkMixer 40 false) "Master").
  reflexivity.
Defined.

(** An increase by 10 on the Linux machine without [amixer]. *)
Lemma adjust_after_failed_query_witness :
  commands (emitted (@onMessage linux_without_amixer
                       (Parsed (request "increaseVolume" (JNum (Int 10)))) (client 1)
                       (@serving linux_without_amixer tt [client 1])))
  = ["amixer get Master"; "amixer set Master 10%";
     "amixer get Master"; "amixer get Master"; "amixer"].
Proof.
  destruct (@adjust_after_failed_query linux_without_amixer (or_introl eq_refl)
              true 10 "amixer get Master"
              (mkError "Command failed: amixer get Master")
              (request "increaseVolume" (JNum (Int 10))) (client 1)
              (@serving linux_without_amixer tt [client 1]) eq_refl eq_refl)
    as [E _];
    [lia | left; reflexivity |].
  rewrite E. reflexivity.
Defined.

(** A toggle on the Linux machine without [amixer]. *)
Lemma toggle_after_failed_query_witness :
  In "amixer set Master mute"
     (commands (emitted (@onMessage linux_without_amixer (Parsed (bare "toggleMute"))
                           (client 1) (@serving linux_without_amixer tt [client 1])))).
Proof.
  rewrite (@toggle_after_failed_query linux_without_amixer (or_introl eq_refl)
             "amixer get Master" (mkError "Command failed: amixer get Master")
             (bare "toggleMute") (client 1) (@serving linux_without_amixer tt [client 1]) eq_refl);
    [|left; reflexivity].
  right. left. reflexivity.
Defined.

(** An [unmute] request on the muted macOS machine. *)
Lemma mute_unmute_set_state_witness :
  mac_muted (world (final (@onMessage mac (Parsed (bare "unmute")) (client 1)
                             (@serving mac (mkMac 40 true) [client 1])))) = false.
Proof.
  apply (@mute_unmute_set_state mac mac_muted mac_faithful_mute false). reflexivity.
Defined.

(** The volume query on the Linux machine without [amixer]. *)
Lemma failed_query_gives_default_witness :
  outcome (@volumeController.getVolume linux_without_amixer tt) = Normal (Int 0).
Proof.
  apply (@failed_query_gives_default linux_without_amixer (or_introl eq_refl) tt
           "amixer get Master" (mkError "Command failed: amixer get Master")).
  left. reflexivity.
Defined.

(** Two ticks on the Linux machine at 40, not muted. *)
Lemma consecutive_ticks_quiet_witness :
  deliveries (emitted (@pollTick linux_mixer
                         (final (@pollTick linux_mixer
                                   (@serving linux_mixer (mkMixer 40 false) [client 1]))))) = [].
Proof.
  apply (@consecutive_ticks_quiet linux_mixer (or_introl eq_refl)
           (@serving linux_mixer (mkMixer 40 false) [client 1]) 40 false); reflexivity.
Defined.

(** The first tick on the Linux machine. *)
Lemma first_tick_broadcasts_witness :
  deliveries (emitted (@pollTick linux_mixer (@serving linux_mixer (mkMixer 40 false) [client 1])))
  = [(1%nat, StateMsg (Int 40) false "Master")].
Proof.
  destruct (@first_tick_broadcasts linux_mixer (or_introl eq_refl)
              (@serving linux_mixer (mkMixer 40 false) [client 1]) eq_refl) as (v & m & _ & _ & E).
  cbv zeta in E. rewrite E. reflexivity.
Defined.

(** A tick that finds 55 where the snapshot holds 40. *)
Lemma pollTick_changed_witness :
  lastVolume (final (@pollTick linux_mixer
                       (@polled linux_mixer (mkMixer 55 false) [client 1] 40 false)))
  = JNum (Int 55).
Proof.
  apply (@pollTick_changed linux_mixer (or_introl eq_refl)
           (@polled linux_mixer (mkMixer 55 false) [client 1] 40 false) (Int 55) false);
    reflexivity.
Defined.

Lemma pollTick_at_most_once_witness :
  (List.length (inbox 1 (emitted (@pollTick linux_mixer
                                    (@serving linux_mixer (mkMixer 40 false)
                                             [client 1; closing 2])))) <= 1)%nat.
Proof.
  apply (@pollTick_at_most_once linux_mixer (or_introl eq_refl)
           (@serving linux_mixer (mkMixer 40 false) [client 1; closing 2])
           [client 1; closing 2]); [reflexivity|].
  repeat constructor; simpl; intuition discriminate.
Defined.

Lemma getVolume_linux_is_natural_witness :
  exists v, outcome (@volumeController.getVolume linux_stereo tt) = Normal (Int v)
            /\ 0 <= v.
Proof.
  destruct (@getVolume_linux_is_natural linux_stereo tt eq_refl) as (v & Hv & Hr).
  - intros out d [= <-] [= <-]. cbn. lia.
  - exists v. split; [exact Hv | lia].
Defined.

(** The stereo machine: the left channel is what is reported. *)
Lemma getVolume_linux_first_percentage_witness :
  outcome (@volumeController.getVolume linux_stereo tt) = Normal (Int 40).
Proof.
  apply (@getVolume_linux_first_percentage linux_stereo tt tt
           ("Simple mixer control 'Master',0" ++ nl ++
            "  Playback channels: Front Left - Front Right" ++ nl ++
            "  Front Left: Playback 26214 ")
           (" [on]" ++ nl ++ "  Front Right: Playback 39321 [60%] [on]" ++ nl) 40);
    [reflexivity | reflexivity | lia | reflexivity].
Defined.

(** A request for 150 on the macOS machine. *)
Lemma volume_change_is_announced_witness :
  mac_volume (world (final (@onMessage mac (Parsed (request "setVolume" (JNum (Int 150))))
                              (client 1) (@serving mac (mkMac 40 false) [client 1])))) = 100.
Proof.
  apply (@volume_change_is_announced mac mac_volume mac_faithful_volume 150
           (request "setVolume" (JNum (Int 150))) (client 1)
           (@serving mac (mkMac 40 false) [client 1]) [client 1]); reflexivity.
Defined.

(** Up by 30 and down by 30 from 90 ends at 70. *)
Lemma increase_then_decrease_witness :
  let st := @serving mac (mkMac 90 false) [client 1] in
  let r1 := onMessage (Parsed (request "increaseVolume" (JNum (Int 30)))) (client 1) st in
  let r2 := onMessage (Parsed (request "decreaseVolume" (JNum (Int 30)))) (client 1)
                      (final r1) in
  mac_volume (world (final r2)) = 70.
Proof.
  apply (@increase_then_decrease mac mac_volume mac_faithful_volume 30
           (request "increaseVolume" (JNum (Int 30)))
           (request "decreaseVolume" (JNum (Int 30))) (client 1)
           (@serving mac (mkMac 90 false) [client 1]));
    try reflexivity; cbn; lia.
Defined.

(** After a poll at 40, a request for 70 and the tick that follows. *)
Lemma change_is_announced_again_by_poll_witness :
  let st := @polled mac (mkMac 40 false) [client 1] 40 false in
  let r := onMessage (Parsed (request "setVolume" (JNum (Int 70)))) (client 1) st in
  exists m d m' d',
    deliveries (emitted r) = [(1%nat, StateMsg (Int 70) m d)] /\
    deliveries (emitted (pollTick (final r))) = [(1%nat, StateMsg (Int 70) m' d')].
Proof.
  apply (@change_is_announced_again_by_poll mac mac_volume mac_faithful_volume 70 40
           (request "setVolume" (JNum (Int 70))) (client 1)
           (@polled mac (mkMac 40 false) [client 1] 40 false) [client 1]);
    try reflexivity. cbn. lia.
Defined.

(** A settings file that holds a port of its own. *)
Lemma set_defaults_fills_gaps_witness :
  settings.get (settings.set_defaults
                  (settings.set settings.empty "port" (JNum (Int 9000)))) "port"
  = JNum (Int 9000).
Proof.
  apply (set_defaults_fills_gaps
           (settings.set settings.empty "port" (JNum (Int 9000))) "port").
  reflexivity.
Defined.

End Further_concrete.
